(** * abipy: IO utilities ([abipy/tools/iotools.py]) and the task-manager
      regression tests ([abipy/flowtk/tests/test_tasks.py])

    The first part embeds [abipy.tools.iotools]: the interactive yes/no
    prompt, the editor helper and the stack of file-like objects.  The
    functions talk to the terminal, the environment and external processes,
    so they are written in a small monad over an explicit [world].

    The second part is the task manager and the autoparal hints that
    [test_tasks.py] exercises.  Their properties come last. *)

From Stdlib Require Import ZArith String Ascii List Bool Lia DecimalString.
From Stdlib Require Import Floats Uint63.
From stdpp Require Import base option list gmap strings.

Local Open Scope string_scope.
Local Open Scope Z_scope.
#[local] Set Warnings "-inexact-float".

(** ** The world the IO helpers run in *)

Module IO.

(** The exceptions the modelled code can observe. *)
Inductive exn : Type :=
| EOFError
| KeyboardInterrupt
| OSError
| KeyError
| IndexError.

(** What one call of the builtin [input] can find on standard input. *)
Inductive stdin_event : Type :=
| Line (s : string)   (* a line of text, without its newline *)
| CtrlC               (* the user interrupts: KeyboardInterrupt *)
| EOF.                (* end of input: EOFError *)

(** What the helpers write to the terminal. *)
Inductive output : Type :=
| Prompt (s : string)                   (* the prompt of [input(prompt)] *)
| Print (s : string)                    (* [print(s)] *)
| Cprint (s : string) (color : string). (* [monty.termcolor.cprint(s, color)] *)

(** How [subprocess.call] ends: the child's return code, or the child could
    not be started at all. *)
Inductive proc_status : Type :=
| Exited (rc : Z)
| SpawnFailed.

Record world : Type := World {
  environ : gmap string string;       (* os.environ *)
  stdin : list stdin_event;           (* pending input, next event first *)
  stdout : list output;               (* written so far, oldest first *)
  calls : list (list string);         (* argv of every [call] so far, oldest first *)
}.

Definition set_stdin (w : world) (i : list stdin_event) : world :=
  {| environ := environ w; stdin := i; stdout := stdout w; calls := calls w |}.

Definition write (o : output) (w : world) : world :=
  {| environ := environ w; stdin := stdin w; stdout := stdout w ++ [o];
     calls := calls w |}.

Definition log_call (argv : list string) (w : world) : world :=
  {| environ := environ w; stdin := stdin w; stdout := stdout w;
     calls := calls w ++ [argv] |}.

(** The result of running a helper.  [Blocked] is a program sitting in
    [input()] with nothing left in [stdin]; [Timeout] is a loop whose
    iteration budget ran out (the entry points below never produce it). *)
Inductive outcome (A : Type) : Type :=
| Ret (a : A)
| Raise (e : exn)
| Blocked
| Timeout.
Arguments Ret {A} a.
Arguments Raise {A} e.
Arguments Blocked {A}.
Arguments Timeout {A}.

Definition IO (A : Type) : Type := world -> outcome A * world.

Definition ret {A} (a : A) : IO A := fun w => (Ret a, w).

Definition bind {A B} (m : IO A) (k : A -> IO B) : IO B :=
  fun w =>
    match m w with
    | (Ret a, w') => k a w'
    | (Raise e, w') => (Raise e, w')
    | (Blocked, w') => (Blocked, w')
    | (Timeout, w') => (Timeout, w')
    end.

Definition raise {A} (e : exn) : IO A := fun w => (Raise e, w).

(** [try: m  except ...: h e]; the handler re-raises what it does not catch. *)
Definition try_except {A} (m : IO A) (h : exn -> IO A) : IO A :=
  fun w =>
    match m w with
    | (Raise e, w') => h e w'
    | r => r
    end.

Declare Scope io_scope.
Delimit Scope io_scope with io.
Notation "x <- m ; k" := (bind m (fun x => k))
  (at level 100, m at next level, right associativity) : io_scope.
Notation "m ;; k" := (bind m (fun _ => k))
  (at level 100, right associativity) : io_scope.

End IO.

(** ** [abipy/tools/iotools.py] *)

Module IOTools.
Import IO.
Local Open Scope io_scope.

(** *** Strings as Python sees them (ASCII text)

    A [string] is a sequence of bytes.  On ASCII text, where a character is
    one byte below 128, the functions below are Python's [str.lower],
    [str.strip] and [len]; on other text Python works on code points
    (U+00A0 is white space for it, a letter outside ASCII counts once in
    [len]) and they are not.  The statements that run [strip] or [len] on
    input therefore take that input to be ASCII text ([ascii_text]). *)

(** [str.lower] on ASCII text: the letters A-Z move to a-z, every other
    character stays. *)
Definition ascii_lower (c : ascii) : ascii :=
  let n := nat_of_ascii c in
  if (65 <=? n)%nat && (n <=? 90)%nat then ascii_of_nat (n + 32) else c.

Fixpoint lower (s : string) : string :=
  match s with
  | EmptyString => EmptyString
  | String c s' => String (ascii_lower c) (lower s')
  end.

(** [str.isspace] on one ASCII character: tab, newline, vertical tab, form
    feed, carriage return, the separators 0x1c-0x1f and the space. *)
Definition ascii_isspace (c : ascii) : bool :=
  let n := nat_of_ascii c in
  ((9 <=? n)%nat && (n <=? 13)%nat) || ((28 <=? n)%nat && (n <=? 32)%nat).

Fixpoint lstrip (s : string) : string :=
  match s with
  | EmptyString => EmptyString
  | String c s' => if ascii_isspace c then lstrip s' else s
  end.

Fixpoint rstrip (s : string) : string :=
  match s with
  | EmptyString => EmptyString
  | String c s' =>
      match rstrip s' with
      | EmptyString => if ascii_isspace c then EmptyString else String c EmptyString
      | t => String c t
      end
  end.

(** [str.strip()] without arguments, on ASCII text. *)
Definition strip (s : string) : string := rstrip (lstrip s).

(** [str(n)] / ["%s" % n] for an integer. *)
Definition str_of_int (n : Z) : string := NilZero.string_of_int (Z.to_int n).

(** *** [get_input] *)

(** [input(prompt)]: writes the prompt, then takes the next event of stdin. *)
Definition get_input (prompt : string) : IO string :=
  fun w =>
    let w := write (Prompt prompt) w in
    match stdin w with
    | [] => (Blocked, w)
    | Line s :: rest => (Ret s, set_stdin w rest)
    | CtrlC :: rest => (Raise KeyboardInterrupt, set_stdin w rest)
    | EOF :: rest => (Raise EOFError, set_stdin w rest)
    end.

Definition print (s : string) : IO unit := fun w => (Ret tt, write (Print s) w).

Definition cprint (s color : string) : IO unit :=
  fun w => (Ret tt, write (Cprint s color) w).

(** *** [ask_yes_no] *)

(** [answers = {'y': True, 'n': False, 'yes': True, 'no': False}] *)
Definition answers : gmap string bool :=
  list_to_map [("y", true); ("n", false); ("yes", true); ("no", false)].

(** [ans in answers.keys()], for [ans] either [None] or a string. *)
Definition in_answers (ans : option string) : bool :=
  match ans with
  | Some s => bool_decide (is_Some (answers !! s))
  | None => false
  end.

(** [answers[ans]] *)
Definition answers_get (ans : option string) : IO bool :=
  match ans ≫= (answers !!.) with
  | Some b => ret b
  | None => raise KeyError
  end.

(** The body of the [try] statement of one iteration; it yields the new
    value of [ans]. *)
Definition ask_yes_no_body (prompt : string) (default ans : option string)
  : IO (option string) :=
  try_except
    (s <- get_input (prompt ++ " ");
     let ans := lower s in
     if String.eqb ans "" then ret default      (* response was an empty string *)
     else ret (Some ans))
    (fun e =>
       match e with
       | KeyboardInterrupt => ret ans           (* pass *)
       | EOFError =>
           if in_answers default then (print "";; ret default)
           else raise EOFError
       | e => raise e
       end).

(** [while ans not in answers.keys(): ...] followed by [return answers[ans]];
    [fuel] bounds the number of iterations. *)
Fixpoint ask_yes_no_loop (fuel : nat) (prompt : string)
    (default ans : option string) : IO bool :=
  if in_answers ans then answers_get ans
  else
    match fuel with
    | O => fun w => (Timeout, w)
    | S fuel' =>
        ans' <- ask_yes_no_body prompt default ans;
        ask_yes_no_loop fuel' prompt default ans'
    end.

(** Every iteration that continues has consumed one event of stdin, so one
    iteration per pending event, plus the one that finds stdin empty, is
    enough. *)
Definition ask_yes_no (prompt : string) (default : option string) : IO bool :=
  fun w => ask_yes_no_loop (S (length (stdin w))) prompt default None w.

(** *** [_user_wants_to_exit] *)

(** The answer is compared through [lower] and [strip], which are Python's
    on an answer of ASCII text. *)
Definition _user_wants_to_exit : IO bool :=
  r <- try_except
         (answer <- get_input "Do you want to continue [Y/n]"; ret (Some answer))
         (fun e => match e with
                   | EOFError => ret None
                   | e => raise e
                   end);
  match r with
  | None => ret true                         (* except EOFError: return True *)
  | Some answer =>
      let a := strip (lower answer) in
      if String.eqb a "n" || String.eqb a "no" then ret true else ret false
  end.

(** *** [Editor] *)

Section WithProcesses.

(** What an external process ends with is not the program's to decide:
    [os_call history argv] is the end of [subprocess.call(argv)] when
    [history] lists the calls made before. *)
Variable os_call : list (list string) -> list string -> proc_status.

(** [subprocess.call(argv)]: runs the command, waits for it, returns its
    return code; raises [OSError] when it cannot be started. *)
Definition call (argv : list string) : IO Z :=
  fun w =>
    match os_call (calls w) argv with
    | Exited rc => (Ret rc, log_call argv w)
    | SpawnFailed => (Raise OSError, log_call argv w)
    end.

(** [os.getenv(key, default)] *)
Definition getenv (key dflt : string) : IO string :=
  fun w => (Ret (from_option id dflt (environ w !! key)), w).

Record Editor : Type := { editor : string }.

Definition DEFAULT_EDITOR : string := "vi".

(** [Editor.__init__(self, editor=None)] *)
Definition Editor_init (editor : option string) : IO Editor :=
  match editor with
  | None => e <- getenv "EDITOR" DEFAULT_EDITOR; ret {| editor := e |}
  | Some e => ret {| editor := e |}
  end.

(** ["Retcode %s while editing file: %s" % (retcode, fname)] *)
Definition retcode_message (retcode : Z) (fname : string) : string :=
  "Retcode " ++ str_of_int retcode ++ " while editing file: " ++ fname.

Definition edit_file (self : Editor) (fname : string) : IO Z :=
  retcode <- call [editor self; fname];
  (if negb (retcode =? 0) then cprint (retcode_message retcode fname) "red"
   else ret tt);;
  ret retcode.

(** The [fnames] argument of [edit_files]: one string or a list of strings. *)
Inductive fnames_arg : Type :=
| OneString (s : string)
| Strings (l : list string).

(** [monty.string.list_strings]: a string becomes a one-element list, a
    list of strings stays as it is. *)
Definition list_strings (arg : fnames_arg) : list string :=
  match arg with
  | OneString s => [s]
  | Strings l => l
  end.

(** The builtin [len] on the argument as passed: the number of elements of
    a list, the number of characters of a string (of ASCII text, so of
    bytes). *)
Definition len (arg : fnames_arg) : Z :=
  match arg with
  | OneString s => Z.of_nat (String.length s)
  | Strings l => Z.of_nat (List.length l)
  end.

(** The [for idx, fname in enumerate(...)] loop of [edit_files], from index
    [idx] on; [n] is [len(fnames)]. *)
Fixpoint edit_files_loop (self : Editor) (n : Z) (ask_for_exit : bool)
    (idx : Z) (todo : list string) : IO Z :=
  match todo with
  | [] => ret 0
  | fname :: rest =>
      exit_status <- edit_file self fname;
      if negb (exit_status =? 0) then ret exit_status
      else
        stop <- (if ask_for_exit && negb (idx =? n - 1)
                 then _user_wants_to_exit else ret false);
        if stop then ret 0                                   (* break *)
        else edit_files_loop self n ask_for_exit (idx + 1) rest
  end.

Definition edit_files (self : Editor) (fnames : fnames_arg)
    (ask_for_exit : bool) : IO Z :=
  edit_files_loop self (len fnames) ask_for_exit 0 (list_strings fnames).

End WithProcesses.

(** *** [ExitStackWithFiles] *)

Section ExitStackWithFiles.

(** The file-like objects and what their [__enter__] gives: a value, or an
    exception (also for an object that is no context manager, which
    [ExitStack.enter_context] rejects with a TypeError). *)
Context {File V : Type}.
Variable cm_enter : File -> option V.

(** The object's state: the [files] list of the subclass and the callbacks
    that [contextlib.ExitStack] keeps, the most recent first. *)
Record ExitStackWithFiles : Type := {
  files : list (option File);
  exit_callbacks : list File;
}.

(** [__init__] *)
Definition ExitStackWithFiles_init : ExitStackWithFiles :=
  {| files := []; exit_callbacks := [] |}.

(** What a call gives back to its caller. *)
Inductive returned : Type :=
| ReturnNone                (* falls off the end of the method *)
| Return (v : V)            (* the result of [__enter__] *)
| EnterRaised.              (* the exception of [super().enter_context] *)

(** [ExitStack.enter_context(cm)]: enters the context manager, pushes its
    [__exit__] and returns the result of [__enter__]. *)
Definition super_enter_context (cm : File) (self : ExitStackWithFiles)
  : ExitStackWithFiles * returned :=
  match cm_enter cm with
  | Some v => ({| files := files self;
                  exit_callbacks := cm :: exit_callbacks self |}, Return v)
  | None => (self, EnterRaised)
  end.

Definition enter_context (myfile : option File) (self : ExitStackWithFiles)
  : ExitStackWithFiles * returned :=
  let self := {| files := files self ++ [myfile];
                 exit_callbacks := exit_callbacks self |} in
  match myfile with
  | Some f => super_enter_context f self
  | None => (self, ReturnNone)
  end.

(** [__iter__]: the elements a [for] loop over the stack sees. *)
Definition iter (self : ExitStackWithFiles) : list (option File) := files self.

(** [__getitem__] at an integer index, with Python's negative indices;
    [None] is IndexError. *)
Definition getitem (self : ExitStackWithFiles) (i : Z) : option (option File) :=
  let n := Z.of_nat (List.length (files self)) in
  if (0 <=? i) && (i <? n) then files self !! Z.to_nat i
  else if (- n <=? i) && (i <? 0) then files self !! Z.to_nat (n + i)
  else None.

(** A caller that enters the objects of [l] one after the other (and goes
    on after an exception). *)
Definition enter_all (l : list (option File)) (self : ExitStackWithFiles)
  : ExitStackWithFiles :=
  fold_left (fun st f => fst (enter_context f st)) l self.

End ExitStackWithFiles.

(** *** Vocabulary of the statements about [ask_yes_no] *)

Section AskYesNoVocabulary.

Variables (prompt : string) (default : option string).

(** The world after [n] more prompts of the question, with [rest] left on
    stdin. *)
Definition asked (n : nat) (rest : list stdin_event) (w : world) : world :=
  {| environ := environ w; stdin := rest;
     stdout := stdout w ++ replicate n (Prompt (prompt ++ " ")%string);
     calls := calls w |}.

(** The new value of [ans] after the user typed the line [s]. *)
Definition ans_of_line (s : string) : option string :=
  if String.eqb (lower s) "" then default else Some (lower s).

(** A line after which the question is asked again. *)
Definition asks_again (s : string) : bool := negb (in_answers (ans_of_line s)).

End AskYesNoVocabulary.

(** *** Vocabulary of the statements about [edit_files] *)

Section EditFilesVocabulary.

Variable os_call : list (list string) -> list string -> proc_status.
Variable self : Editor.

(** The command line of the editor on one file. *)
Definition argv_of (fname : string) : list string := [editor self; fname].

(** How the editor ends on file number [i] of [names] when the files before
    it have been edited in order, after the calls of [history]. *)
Definition status_at (history : list (list string)) (names : list string)
    (i : nat) : option proc_status :=
  match names !! i with
  | Some fname =>
      Some (os_call (history ++ map argv_of (take i names)) (argv_of fname))
  | None => None
  end.

(** The first [k] files were edited and the editor returned 0 on each. *)
Definition all_zero (history : list (list string)) (names : list string)
    (k : nat) : Prop :=
  forall i, (i < k)%nat -> status_at history names i = Some (Exited 0).

End EditFilesVocabulary.

(** *** Vocabulary of the further statements *)

(** An event after which [ask_yes_no] asks again: a line that does not
    answer, or an interrupt. *)
Definition ignored (default : option string) (e : stdin_event) : bool :=
  match e with
  | Line s => asks_again default s
  | CtrlC => true
  | EOF => false
  end.

(** ASCII text: every character is below 128, so the bytes are the
    characters and [lower], [strip] and [String.length] are Python's. *)
Fixpoint ascii_text (s : string) : bool :=
  match s with
  | EmptyString => true
  | String c s' => (nat_of_ascii c <? 128)%nat && ascii_text s'
  end.

(** The prompt of [_user_wants_to_exit]. *)
Definition continue_prompt : output := Prompt "Do you want to continue [Y/n]".

(** An answer to the continue prompt that stops the editing: n or no, in
    any letter case, with ASCII white space around.  (Such a line is ASCII
    text, and Python stops on it as well; on a line that is not ASCII text
    Python may stop where this is [false].) *)
Definition says_stop (s : string) : bool :=
  String.eqb (strip (lower s)) "n" || String.eqb (strip (lower s)) "no".

(** An event at the continue prompt that stops the editing: such an
    answer, or end-of-file. *)
Definition stops (e : stdin_event) : bool :=
  match e with
  | Line s => says_stop s
  | EOF => true
  | CtrlC => false
  end.

(** The world after the external calls [cs], [n] continue prompts and with
    [rest] left on stdin. *)
Definition edited (cs : list (list string)) (n : nat) (rest : list stdin_event)
    (w : world) : world :=
  {| environ := environ w; stdin := rest;
     stdout := stdout w ++ replicate n continue_prompt;
     calls := calls w ++ cs |}.

(** The object that a call of [enter_context] leaves a callback for. *)
Definition registered {File V : Type} (cm_enter : File -> option V)
    (myfile : option File) : option File :=
  match myfile with
  | Some f => match cm_enter f with Some _ => Some f | None => None end
  | None => None
  end.

End IOTools.

(** * Properties of [abipy.tools.iotools] *)

(** ** The task manager and the autoparal hints ([abipy.flowtk.tasks])

    [abipy/flowtk/tasks.py] and the queue adapters it builds are not among
    the sources; the test file [abipy/flowtk/tests/test_tasks.py] is.  The
    objects are modelled from the specification, the documents from the test
    file. *)

Module Tasks.

(** What loading a YAML document gives: the Python scalars, lists and
    dictionaries of [yaml_safe_load]. *)
#[local] Unset Elimination Schemes.
Inductive value : Type :=
| VInt (n : Z)
| VFloat (x : float)
| VStr (s : string)
| VList (l : list value)
| VDict (d : list (string * value)).
#[local] Set Elimination Schemes.

(** [d.get(key)] on the (ordered) items of a dictionary. *)
Fixpoint dict_get (key : string) (d : list (string * value)) : option value :=
  match d with
  | [] => None
  | (k, v) :: d' => if String.eqb k key then Some v else dict_get key d'
  end.

Definition to_int (v : value) : option Z :=
  match v with VInt n => Some n | _ => None end.
Definition to_str (v : value) : option string :=
  match v with VStr s => Some s | _ => None end.
Definition to_list (v : value) : option (list value) :=
  match v with VList l => Some l | _ => None end.
Definition to_items (v : value) : option (list (string * value)) :=
  match v with VDict d => Some d | _ => None end.
(** [float(n)] for an integer below 2^63 in absolute value. *)
Definition float_of_Z (n : Z) : float :=
  if n <? 0 then PrimFloat.opp (PrimFloat.of_uint63 (Uint63.of_Z (- n)))
  else PrimFloat.of_uint63 (Uint63.of_Z n).
(** A number read as a float: a YAML float, or an integer converted. *)
Definition to_float (v : value) : option float :=
  match v with VFloat x => Some x | VInt n => Some (float_of_Z n) | _ => None end.

(** *** The manager *)

(** Modelled from the spec: the [queue] sub-record of a queue adapter
    (queue type, name and parameters), from [abipy.flowtk.qadapters]. *)
Record Queue : Type := { qtype : string; qname : string; qparams : value }.

(** Modelled from the spec: the [limits] sub-record of a queue adapter
    (resource limits), from [abipy.flowtk.qadapters]. *)
Record Limits : Type := { timelimit : value; min_cores : Z; max_cores : Z }.

(** Modelled from the spec: a queue adapter of [abipy.flowtk.qadapters]: the
    sub-records of its YAML entry (hardware and job are kept as loaded) and
    the numbers of MPI processes and OpenMP threads it runs with. *)
Record QueueAdapter : Type := {
  priority : Z;
  queue : Queue;
  limits : Limits;
  hardware : value;
  job : value;
  mpi_procs : Z;
  omp_threads : Z;
}.

(** Modelled from the spec: the policy of [abipy.flowtk.tasks.TaskPolicy],
    as far as the tests read it. *)
Record TaskPolicy : Type := { autoparal : Z }.

(** Modelled from the spec: the manager record of
    [abipy.flowtk.tasks.TaskManager]: a policy and its queue adapters. *)
Record TaskManager : Type := { policy : TaskPolicy; qads : list QueueAdapter }.

(** A parsed queue adapter starts with one MPI process per core of its
    minimum-core limit and one thread. *)
Definition initial (q : QueueAdapter) : Prop :=
  mpi_procs q = min_cores (limits q) /\ omp_threads q = 1.

Module QueueAdapter.

(** Modelled from the spec: the cores of a queue adapter, processes times
    threads ([QueueAdapter.num_cores]). *)
Definition num_cores (q : QueueAdapter) : Z := mpi_procs q * omp_threads q.

(** Modelled from the spec: a queue adapter read from its YAML entry
    ([QueueAdapter.__init__]): without autoparal it starts with one MPI
    process per core of the minimum-core limit and one thread. *)
Definition from_dict (v : value) : option QueueAdapter :=
  d ← to_items v;
  prio ← dict_get "priority" d ≫= to_int;
  qd ← dict_get "queue" d ≫= to_items;
  qt ← dict_get "qtype" qd ≫= to_str;
  qn ← dict_get "qname" qd ≫= to_str;
  qp ← dict_get "qparams" qd;
  ld ← dict_get "limits" d ≫= to_items;
  tl ← dict_get "timelimit" ld;
  minc ← dict_get "min_cores" ld ≫= to_int;
  maxc ← dict_get "max_cores" ld ≫= to_int;
  hw ← dict_get "hardware" d;
  jb ← dict_get "job" d;
  Some {| priority := prio;
          queue := {| qtype := qt; qname := qn; qparams := qp |};
          limits := {| timelimit := tl; min_cores := minc; max_cores := maxc |};
          hardware := hw; job := jb;
          mpi_procs := minc; omp_threads := 1 |}.

(** Modelled from the spec: the dictionary serialization of a queue adapter
    ([QueueAdapter.as_dict]), in the layout of the YAML entry. *)
Definition as_dict (q : QueueAdapter) : value :=
  VDict [("priority", VInt (priority q));
         ("queue", VDict [("qtype", VStr (qtype (queue q)));
                          ("qname", VStr (qname (queue q)));
                          ("qparams", qparams (queue q))]);
         ("limits", VDict [("timelimit", timelimit (limits q));
                           ("min_cores", VInt (min_cores (limits q)));
                           ("max_cores", VInt (max_cores (limits q)))]);
         ("hardware", hardware q);
         ("job", job q)].

End QueueAdapter.

Module TaskManager.

(** Modelled from the spec: the default policy of a manager whose document
    has no [policy] section: no autoparal. *)
Definition default_policy : TaskPolicy := {| autoparal := 0 |}.

(** Modelled from the spec: [TaskManager.from_dict], the manager of a loaded
    YAML document ([TaskManager.from_string] loads the string first). *)
Definition from_dict (v : value) : option TaskManager :=
  d ← to_items v;
  pol ← match dict_get "policy" d with
        | None => Some default_policy
        | Some p => pd ← to_items p; a ← dict_get "autoparal" pd ≫= to_int;
                    Some {| autoparal := a |}
        end;
  qs ← dict_get "qadapters" d ≫= to_list;
  qads ← mapM QueueAdapter.from_dict qs;
  Some {| policy := pol; qads := qads |}.

(** Modelled from the spec: [TaskManager.as_dict], the generic dictionary
    serialization. *)
Definition as_dict (m : TaskManager) : value :=
  VDict [("policy", VDict [("autoparal", VInt (autoparal (policy m)))]);
         ("qadapters", VList (map QueueAdapter.as_dict (qads m)))].

(** Modelled from the spec: the queue adapter in use, the first one. *)
Definition qadapter (m : TaskManager) : option QueueAdapter := head (qads m).

(** Modelled from the spec: [TaskManager.mpi_procs], the MPI processes of
    the queue adapter in use. *)
Definition mpi_procs (m : TaskManager) : option Z := Tasks.mpi_procs <$> qadapter m.

(** Modelled from the spec: [TaskManager.omp_threads], the threads of the
    queue adapter in use. *)
Definition omp_threads (m : TaskManager) : option Z := Tasks.omp_threads <$> qadapter m.

(** Modelled from the spec: [TaskManager.num_cores], the cores of the queue
    adapter in use. *)
Definition num_cores (m : TaskManager) : option Z := QueueAdapter.num_cores <$> qadapter m.

(** Modelled from the spec: [TaskManager.has_queue]: the adapter in use
    submits to a queue, it does not run in the shell. *)
Definition has_queue (m : TaskManager) : option bool :=
  (fun q => negb (String.eqb (qtype (queue q)) "shell")) <$> qadapter m.

(** Modelled from the spec: what deriving a shell manager overrides in a
    manager: its adapters run in the shell, with the given process count as
    both core limits. *)
Definition override_shell (mpi_procs : Z) (m : TaskManager) : TaskManager :=
  {| policy := policy m;
     qads := map (fun q =>
               {| priority := priority q;
                  queue := {| qtype := "shell"; qname := qname (queue q);
                              qparams := qparams (queue q) |};
                  limits := {| timelimit := timelimit (limits q);
                               min_cores := mpi_procs; max_cores := mpi_procs |};
                  hardware := hardware q; job := job q;
                  Tasks.mpi_procs := Tasks.mpi_procs q;
                  Tasks.omp_threads := Tasks.omp_threads q |})
             (qads m) |}.

(** Modelled from the spec: [TaskManager.set_mpi_procs], the number of MPI
    processes of the adapters. *)
Definition set_mpi_procs (mpi_procs : Z) (m : TaskManager) : TaskManager :=
  {| policy := policy m;
     qads := map (fun q =>
               {| priority := priority q; queue := queue q; limits := limits q;
                  hardware := hardware q; job := job q;
                  Tasks.mpi_procs := mpi_procs;
                  Tasks.omp_threads := Tasks.omp_threads q |})
             (qads m) |}.

(** Modelled from the spec: [TaskManager.new_with_fixed_mpi_omp]: a copy
    with the given processes and threads, whose product is the minimum and
    the maximum core limit of every queue adapter. *)
Definition new_with_fixed_mpi_omp (m : TaskManager) (mpi_procs omp_threads : Z)
  : TaskManager :=
  {| policy := {| autoparal := 0 |};
     qads := map (fun q =>
               {| priority := priority q;
                  queue := queue q;
                  limits := {| timelimit := timelimit (limits q);
                               min_cores := mpi_procs * omp_threads;
                               max_cores := mpi_procs * omp_threads |};
                  hardware := hardware q; job := job q;
                  Tasks.mpi_procs := mpi_procs;
                  Tasks.omp_threads := omp_threads |})
             (qads m) |}.

End TaskManager.

(** *** Manager objects in memory *)

(** A Python name holds a reference to an object; a method reads and
    updates the objects in memory, the one it is called on included, and
    returns a value.  [None] is an access through a reference that holds no
    manager. *)
Definition ref : Type := positive.

Definition method (A : Type) : Type :=
  gmap ref TaskManager -> option (A * gmap ref TaskManager).

Definition and_then {A B} (x : method A) (k : A -> method B) : method B :=
  fun h => match x h with
           | Some (a, h') => k a h'
           | None => None
           end.

(** The object behind a reference. *)
Definition read (r : ref) : method TaskManager :=
  fun h => match h !! r with
           | Some m => Some (m, h)
           | None => None
           end.

(** An assignment to attributes of the object behind [r]: the object is
    changed in place. *)
Definition mutate (r : ref) (f : TaskManager -> TaskManager) : method unit :=
  fun h => match h !! r with
           | Some m => Some (tt, <[r := f m]> h)
           | None => None
           end.

(** A new object, behind a reference that is not in use. *)
Definition new_object (m : TaskManager) : method ref :=
  fun h => Some (fresh (dom h), <[fresh (dom h) := m]> h).

(** An attribute read through a reference. *)
Definition attr {A} (get : TaskManager -> option A) (r : ref)
    (h : gmap ref TaskManager) : option A :=
  h !! r ≫= get.

(** Modelled from the spec: [TaskManager.to_shell_manager(mpi_procs)]: the
    manager is cloned, then the clone is overridden in place: its adapters
    are made shell adapters with the process count as core limits, and its
    number of MPI processes is set; the clone is returned. *)
Definition to_shell_manager (self : ref) (mpi_procs : Z) : method ref :=
  and_then (read self) (fun m =>
  and_then (new_object m) (fun new =>
  and_then (mutate new (TaskManager.override_shell mpi_procs)) (fun _ =>
  and_then (mutate new (TaskManager.set_mpi_procs mpi_procs)) (fun _ =>
  fun h => Some (new, h))))).

(** The sample of the test: [TaskManagerTest.MANAGER], as loaded. *)
Definition MANAGER : value :=
  VDict [("qadapters", VList [
    VDict [("priority", VInt 1);
           ("queue", VDict [("qtype", VStr "slurm");
                            ("qname", VStr "Oban");
                            ("qparams", VDict [("mail_user", VStr "nobody@nowhere")])]);
           ("limits", VDict [("timelimit", VStr "0:20:00");
                             ("min_cores", VInt 4);
                             ("max_cores", VInt 12)]);
           ("hardware", VDict [("num_nodes", VInt 10);
                               ("sockets_per_node", VInt 1);
                               ("cores_per_socket", VInt 2);
                               ("mem_per_node", VStr "4 Gb")]);
           ("job", VDict [("modules", VList [VStr "intel/compilerpro/13.0.1.117";
                                             VStr "fftw3/intel/3.3"]);
                          ("shell_env", VDict [
                             ("PATH", VStr "/home/user/tmp_intel13/src/98_main/:/home/user//NAPS/intel13/bin:$PATH");
                             ("LD_LIBRARY_PATH", VStr "/home/user/NAPS/intel13/lib:$LD_LIBRARY_PATH")]);
                          ("mpi_runner", VStr "mpirun")])]])].


(** *** The autoparal hints *)

(** Modelled from the spec: one configuration sample of the autoparal
    section ([abipy.flowtk.tasks.ParalConf]): the fields [tot_ncpus],
    [mpi_ncpus], [efficiency], [mem_per_cpu] and the solver's integer
    variables. *)
Record ParalConf : Type := {
  tot_ncpus : Z;
  mpi_ncpus : Z;
  efficiency : float;
  mem_per_cpu : float;
  vars : list (string * Z);
}.

(** Modelled from the spec: the parsed document
    ([abipy.flowtk.tasks.ParalHints]): its [info] section and the list of
    the samples. *)
Record ParalHints : Type := { info : value; confs : list ParalConf }.

(** The builtin [max] of a sequence under [<]: the first of the largest
    elements; [None] is the ValueError of an empty sequence. *)
Definition py_max {A} (lt : A -> A -> bool) (l : list A) : option A :=
  match l with
  | [] => None
  | x :: l' => Some (fold_left (fun m y => if lt m y then y else m) l' x)
  end.

Module ParalConf.

(** Modelled from the spec: a sample read from its YAML entry. *)
Definition from_dict (v : value) : option ParalConf :=
  d ← to_items v;
  tot ← dict_get "tot_ncpus" d ≫= to_int;
  mpi ← dict_get "mpi_ncpus" d ≫= to_int;
  eff ← dict_get "efficiency" d ≫= to_float;
  mem ← dict_get "mem_per_cpu" d ≫= to_float;
  vs ← dict_get "vars" d ≫= to_items;
  vs ← mapM (fun kv => n ← to_int (snd kv); Some (fst kv, n)) vs;
  Some {| tot_ncpus := tot; mpi_ncpus := mpi; efficiency := eff;
          mem_per_cpu := mem; vars := vs |}.

(** Modelled from the spec: the cores of a sample. *)
Definition num_cores (c : ParalConf) : Z := tot_ncpus c.

(** Modelled from the spec: the memory per process of a sample. *)
Definition mem_per_proc (c : ParalConf) : float := mem_per_cpu c.

(** Modelled from the spec: the speedup of a sample, efficiency times the
    total number of cpus (in Python's float arithmetic). *)
Definition speedup (c : ParalConf) : float :=
  PrimFloat.mul (efficiency c) (float_of_Z (tot_ncpus c)).

End ParalConf.

Module ParalHints.

(** Modelled from the spec: [ParalHintsParser.parse], from the loaded
    document on. *)
Definition from_doc (v : value) : option ParalHints :=
  d ← to_items v;
  i ← dict_get "info" d;
  cs ← dict_get "configurations" d ≫= to_list;
  cs ← mapM ParalConf.from_dict cs;
  Some {| info := i; confs := cs |}.

(** Modelled from the spec: [ParalHints.max_cores], the largest core count
    over the samples. *)
Definition max_cores (h : ParalHints) : option Z :=
  py_max Z.ltb (map ParalConf.num_cores (confs h)).

(** Modelled from the spec: [ParalHints.max_mem_per_proc], the largest
    memory per process over the samples. *)
Definition max_mem_per_proc (h : ParalHints) : option float :=
  py_max PrimFloat.ltb (map ParalConf.mem_per_proc (confs h)).

(** Modelled from the spec: [ParalHints.max_speedup], the largest speedup
    over the samples. *)
Definition max_speedup (h : ParalHints) : option float :=
  py_max PrimFloat.ltb (map ParalConf.speedup (confs h)).

(** Modelled from the spec: [ParalHints.max_efficiency], the largest
    efficiency over the samples. *)
Definition max_efficiency (h : ParalHints) : option float :=
  py_max PrimFloat.ltb (map efficiency (confs h)).

End ParalHints.

(** One entry of the [configurations] list of the sample. *)
Definition sample_conf (tot mpi : Z) (eff mem : float) (npfft npkpt : Z) : value :=
  VDict [("tot_ncpus", VInt tot); ("mpi_ncpus", VInt mpi);
         ("efficiency", VFloat eff); ("mem_per_cpu", VFloat mem);
         ("vars", VDict [("npfft", VInt npfft); ("npkpt", VInt npkpt)])].

(** The sample of the test: the Autoparal document of
    [ParalHintsTest.test_base], as loaded. *)
Definition AUTOPARAL : value :=
  VDict [("info", VDict [("autoparal", VInt 1); ("max_ncpus", VInt 4);
                         ("nkpt", VInt 6); ("nsppol", VInt 1);
                         ("nspinor", VInt 1); ("nbnds", VInt 10)]);
         ("configurations", VList [
            sample_conf 1 1 1.000000000 11.54 1 1;
            sample_conf 2 2 1.000000000 7.42 1 2;
            sample_conf 2 2 0.100000000 9.42 2 1;
            sample_conf 3 3 0.833333333 6.60 3 1;
            sample_conf 4 4 0.833333333 15.77 2 2])].

End Tasks.

Module IOToolsFacts.
Import IO IOTools.
Local Open Scope io_scope.
Local Open Scope list_scope.

(** ** [Editor] *)

Section EditorFacts.

Variable os_call : list (list string) -> list string -> proc_status.

Lemma edit_file_unfold self fname w :
  edit_file os_call self fname w =
  match os_call (calls w) [editor self; fname] with
  | Exited rc =>
      (Ret rc,
       if negb (rc =? 0)
       then write (Cprint (retcode_message rc fname) "red")
                  (log_call [editor self; fname] w)
       else log_call [editor self; fname] w)
  | SpawnFailed => (Raise OSError, log_call [editor self; fname] w)
  end.
Proof.
  unfold edit_file, bind, call.
  destruct (os_call (calls w) [editor self; fname]) as [rc|]; [|reflexivity].
  destruct (negb (rc =? 0)); reflexivity.
Qed.

(** C7. When the editor process exits with a non-zero return code,
    [Editor.edit_file] prints a warning (the red "Retcode ... while editing
    file: ..." line) and returns that return code to its caller; it does not
    raise. *)
Theorem edit_file_nonzero_retcode (self : Editor) (fname : string) (w : world) (rc : Z) :
  os_call (calls w) [editor self; fname] = Exited rc ->
  rc <> 0 ->
  edit_file os_call self fname w =
  (Ret rc,
   write (Cprint ("Retcode " ++ str_of_int rc ++ " while editing file: " ++ fname)%string "red")
         (log_call [editor self; fname] w)).
Proof.
  intros Hcall Hrc.
  rewrite edit_file_unfold, Hcall.
  apply Z.eqb_neq in Hrc. now rewrite Hrc.
Qed.

(** C8. An [Editor] built with [editor=None] takes its editor name from the
    environment variable EDITOR, and "vi" when the variable is unset;
    [edit_file] runs that command on the file (argv = [name, fname]) and
    returns the exit status of the process. *)
Theorem Editor_default_editor (w : world) (fname : string) :
  let name := match environ w !! "EDITOR" with
              | Some e => e
              | None => "vi"
              end in
  Editor_init None w = (Ret {| editor := name |}, w) /\
  forall rc,
    os_call (calls w) [name; fname] = Exited rc ->
    fst ((ed <- Editor_init None; edit_file os_call ed fname) w) = Ret rc /\
    calls (snd ((ed <- Editor_init None; edit_file os_call ed fname) w))
      = calls w ++ [[name; fname]].
Proof.
  intros name.
  assert (Hinit : Editor_init None w = (Ret {| editor := name |}, w)).
  { unfold Editor_init, bind, getenv, ret, name, DEFAULT_EDITOR.
    destruct (environ w !! "EDITOR"); reflexivity. }
  split; [exact Hinit|].
  intros rc Hcall.
  unfold bind. rewrite Hinit.
  rewrite edit_file_unfold. cbn [editor]. rewrite Hcall.
  split; [reflexivity|].
  cbn [snd]. destruct (negb (rc =? 0)); reflexivity.
Qed.

End EditorFacts.

(** EDITOR=emacs in the environment, and an editor that exits with 0. *)
Lemma Editor_default_editor_witness :
  Editor_init None
    {| environ := {[ "EDITOR" := "emacs" ]}; stdin := []; stdout := []; calls := [] |}
  = (Ret {| editor := "emacs" |},
     {| environ := {[ "EDITOR" := "emacs" ]}; stdin := []; stdout := []; calls := [] |}) /\
  fst ((ed <- Editor_init None; edit_file (fun _ _ => Exited 0) ed "a.txt")
         {| environ := {[ "EDITOR" := "emacs" ]}; stdin := []; stdout := [];
            calls := [] |}) = Ret 0 /\
  calls (snd ((ed <- Editor_init None; edit_file (fun _ _ => Exited 0) ed "a.txt")
                {| environ := {[ "EDITOR" := "emacs" ]}; stdin := []; stdout := [];
                   calls := [] |})) = [["emacs"; "a.txt"]].
Proof.
  destruct (Editor_default_editor (fun _ _ => Exited 0)
              {| environ := {[ "EDITOR" := "emacs" ]}; stdin := []; stdout := [];
                 calls := [] |} "a.txt") as [Hinit Hedit].
  split; [exact Hinit|]. apply (Hedit 0). reflexivity.
Defined.

(** An editor that always fails with status 2, run on [notes.txt]. *)
Lemma edit_file_nonzero_retcode_witness :
  edit_file (fun _ _ => Exited 2) {| editor := "vi" |} "notes.txt"
    {| environ := ∅; stdin := []; stdout := []; calls := [] |} =
  (Ret 2,
   {| environ := ∅; stdin := [];
      stdout := [Cprint "Retcode 2 while editing file: notes.txt" "red"];
      calls := [["vi"; "notes.txt"]] |}).
Proof.
  apply (edit_file_nonzero_retcode (fun _ _ => Exited 2) {| editor := "vi" |}
           "notes.txt" {| environ := ∅; stdin := []; stdout := []; calls := [] |} 2).
  - reflexivity.
  - lia.
Defined.

(** ** [ExitStackWithFiles] *)

Section ExitStackFacts.

Context {File V : Type}.
Variable cm_enter : File -> option V.

Abbreviation stack := (@ExitStackWithFiles File).

Lemma enter_context_files (myfile : option File) (self : stack) :
  files (fst (enter_context cm_enter myfile self)) = files self ++ [myfile].
Proof.
  unfold enter_context, super_enter_context.
  destruct myfile as [f|]; [|reflexivity].
  cbn [files]. destruct (cm_enter f); reflexivity.
Qed.

Lemma enter_all_files (l : list (option File)) (self : stack) :
  files (enter_all cm_enter l self) = files self ++ l.
Proof.
  revert self. induction l as [|x l IH]; intros self; cbn.
  - now rewrite app_nil_r.
  - fold (enter_all cm_enter l (fst (enter_context cm_enter x self))).
    rewrite IH, enter_context_files, <- app_assoc. reflexivity.
Qed.

(** Indexing from the front agrees with the list, out of range included. *)
Lemma getitem_nonneg (self : stack) (i : nat) :
  getitem self (Z.of_nat i) = files self !! i.
Proof.
  unfold getitem.
  destruct (Z.ltb_spec (Z.of_nat i) (Z.of_nat (length (files self)))) as [Hlt|Hge].
  - replace (0 <=? Z.of_nat i) with true by (symmetry; apply Z.leb_le; lia).
    cbn. now rewrite Nat2Z.id.
  - rewrite andb_false_r.
    replace (Z.of_nat i <? 0) with false by (symmetry; apply Z.ltb_ge; lia).
    rewrite andb_false_r. symmetry. apply lookup_ge_None. lia.
Qed.

(** Indexing from the back: [-1] is the last entered object. *)
Lemma getitem_neg (self : stack) (i : nat) :
  (i < length (files self))%nat ->
  getitem self (- Z.of_nat (S i)) = files self !! (length (files self) - S i)%nat.
Proof.
  intros Hi. unfold getitem.
  replace (0 <=? - Z.of_nat (S i)) with false by (symmetry; apply Z.leb_gt; lia).
  cbn [andb].
  replace (- Z.of_nat (length (files self)) <=? - Z.of_nat (S i)) with true
    by (symmetry; apply Z.leb_le; lia).
  replace (- Z.of_nat (S i) <? 0) with true by (symmetry; apply Z.ltb_lt; lia).
  cbn [andb]. f_equal. lia.
Qed.

(** C9. [enter_context] appends its argument to [files] at every call, for
    [None] too; for [None] it registers nothing and returns [None]; for an
    object it registers the exit callback and returns what entering the
    context gave (when [super().enter_context] raises, nothing is
    registered).  So iterating and indexing a stack filled by successive
    calls give back every entered object, [None] included, in the order of
    the calls. *)
Theorem enter_context_keeps_every_file
    (myfile : option File) (self : stack) (l : list (option File)) :
  files (fst (enter_context cm_enter myfile self)) = files self ++ [myfile] /\
  match myfile with
  | None =>
      snd (enter_context cm_enter None self) = ReturnNone /\
      exit_callbacks (fst (enter_context cm_enter None self)) = exit_callbacks self
  | Some f =>
      match cm_enter f with
      | Some v =>
          snd (enter_context cm_enter (Some f) self) = Return v /\
          exit_callbacks (fst (enter_context cm_enter (Some f) self))
            = f :: exit_callbacks self
      | None =>
          snd (enter_context cm_enter (Some f) self) = EnterRaised /\
          exit_callbacks (fst (enter_context cm_enter (Some f) self))
            = exit_callbacks self
      end
  end /\
  iter (enter_all cm_enter l ExitStackWithFiles_init) = l /\
  forall i : nat,
    getitem (enter_all cm_enter l ExitStackWithFiles_init) (Z.of_nat i) = l !! i.
Proof.
  split; [apply enter_context_files|].
  split.
  - destruct myfile as [f|]; [|split; reflexivity].
    unfold enter_context, super_enter_context.
    destruct (cm_enter f); split; reflexivity.
  - split.
    + unfold iter. now rewrite enter_all_files.
    + intros i. now rewrite getitem_nonneg, enter_all_files.
Qed.

End ExitStackFacts.

(** ** [ask_yes_no] *)

Section AskYesNoFacts.

Variables (prompt : string) (default : option string).

#[local] Abbreviation asked := (IOTools.asked prompt).
#[local] Abbreviation ans_of_line := (IOTools.ans_of_line default).
#[local] Abbreviation asks_again := (IOTools.asks_again default).

Lemma asked_S n rest rest' w :
  set_stdin (write (Prompt (prompt ++ " ")%string) (asked n rest w)) rest'
  = asked (S n) rest' w.
Proof.
  unfold IOTools.asked, set_stdin, write; cbn. f_equal.
  rewrite <- app_assoc. f_equal.
  change (Prompt (prompt ++ " ")%string :: replicate n (Prompt (prompt ++ " ")%string))
    with (replicate (S n) (Prompt (prompt ++ " ")%string)).
  now rewrite replicate_S_end.
Qed.

Lemma body_line ans s rest w :
  stdin w = Line s :: rest ->
  ask_yes_no_body prompt default ans w
  = (Ret (ans_of_line s), set_stdin (write (Prompt (prompt ++ " ")%string) w) rest).
Proof.
  intros H. unfold ask_yes_no_body, try_except, bind, get_input, IOTools.ans_of_line.
  cbn. rewrite H. destruct (String.eqb (lower s) ""); reflexivity.
Qed.

Lemma body_interrupt ans rest w :
  stdin w = CtrlC :: rest ->
  ask_yes_no_body prompt default ans w
  = (Ret ans, set_stdin (write (Prompt (prompt ++ " ")%string) w) rest).
Proof.
  intros H. unfold ask_yes_no_body, try_except, bind, get_input.
  cbn. rewrite H. reflexivity.
Qed.

Lemma body_eof ans rest w :
  stdin w = EOF :: rest ->
  ask_yes_no_body prompt default ans w
  = if in_answers default
    then (Ret default,
          write (Print "") (set_stdin (write (Prompt (prompt ++ " ")%string) w) rest))
    else (Raise EOFError, set_stdin (write (Prompt (prompt ++ " ")%string) w) rest).
Proof.
  intros H. unfold ask_yes_no_body, try_except, bind, get_input.
  cbn. rewrite H. destruct (in_answers default); reflexivity.
Qed.

Lemma body_blocked ans w :
  stdin w = [] ->
  ask_yes_no_body prompt default ans w
  = (Blocked, write (Prompt (prompt ++ " ")%string) w).
Proof.
  intros H. unfold ask_yes_no_body, try_except, bind, get_input.
  cbn. rewrite H. reflexivity.
Qed.

Lemma loop_continue fuel ans w :
  in_answers ans = false ->
  ask_yes_no_loop (S fuel) prompt default ans w
  = (ans' <- ask_yes_no_body prompt default ans;
     ask_yes_no_loop fuel prompt default ans') w.
Proof. intros H. cbn [ask_yes_no_loop]. now rewrite H. Qed.

(** While [ans] is not a recognized answer its value does not matter: only
    an interrupt keeps it, and it is still unrecognized then. *)
Lemma loop_ans_irrelevant fuel : forall a1 a2 w,
  in_answers a1 = false -> in_answers a2 = false ->
  ask_yes_no_loop fuel prompt default a1 w
  = ask_yes_no_loop fuel prompt default a2 w.
Proof.
  induction fuel as [|fuel IH]; intros a1 a2 w H1 H2.
  - cbn. now rewrite H1, H2.
  - rewrite !loop_continue by assumption. unfold bind.
    destruct (stdin w) as [|[s| |] rest] eqn:Hin.
    + now rewrite !body_blocked.
    + now rewrite !(body_line _ s rest).
    + rewrite !(body_interrupt _ rest) by assumption. now apply IH.
    + rewrite !(body_eof _ rest) by assumption. reflexivity.
Qed.

(** The loop skips every line after which the question is asked again. *)
Lemma loop_skips_lines (ls : list string) : forall fuel n rest w,
  Forall (fun l => asks_again l = true) ls ->
  ask_yes_no_loop (length ls + fuel) prompt default None
    (asked n (map Line ls ++ rest) w)
  = ask_yes_no_loop fuel prompt default None (asked (length ls + n) rest w).
Proof.
  induction ls as [|l ls IH]; intros fuel n rest w Hall; [reflexivity|].
  apply Forall_cons in Hall as [Hl Hall].
  cbn [length Nat.add map app]. rewrite loop_continue by reflexivity.
  unfold bind. rewrite (body_line _ l (map Line ls ++ rest)) by reflexivity.
  rewrite asked_S.
  rewrite (loop_ans_irrelevant _ (ans_of_line l) None)
    by (try reflexivity; now apply negb_true_iff).
  rewrite IH by assumption. now rewrite Nat.add_succ_r.
Qed.

Lemma asked_0 w : asked 0 (stdin w) w = w.
Proof. destruct w. unfold IOTools.asked. cbn. now rewrite app_nil_r. Qed.

Lemma asked_1 rest w :
  set_stdin (write (Prompt (prompt ++ " ")%string) w) rest = asked 1 rest w.
Proof. reflexivity. Qed.

Lemma loop_skips_lines_from (ls : list string) fuel rest w :
  Forall (fun l => asks_again l = true) ls ->
  stdin w = map Line ls ++ rest ->
  ask_yes_no_loop (length ls + fuel) prompt default None w
  = ask_yes_no_loop fuel prompt default None (asked (length ls) rest w).
Proof.
  intros Hall Hin.
  pose proof (loop_skips_lines ls fuel 0 rest w Hall) as H.
  rewrite <- Hin, asked_0, Nat.add_0_r in H. exact H.
Qed.

(** Enough fuel: with more iterations than pending events the loop never
    runs out of budget. *)
Lemma loop_no_timeout fuel : forall ans w,
  (length (stdin w) < fuel)%nat ->
  fst (ask_yes_no_loop fuel prompt default ans w) <> Timeout.
Proof.
  induction fuel as [|fuel IH]; intros ans w Hlen; [lia|].
  cbn [ask_yes_no_loop]. destruct (in_answers ans) eqn:Hans.
  - unfold answers_get. destruct (ans ≫= _); discriminate.
  - unfold bind. destruct (stdin w) as [|[s| |] rest] eqn:Hin; cbn in Hlen.
    + rewrite body_blocked by assumption. discriminate.
    + rewrite (body_line _ s rest) by assumption. apply IH. cbn. lia.
    + rewrite (body_interrupt _ rest) by assumption. apply IH. cbn. lia.
    + rewrite (body_eof _ rest) by assumption.
      destruct (in_answers default); [apply IH; cbn; lia | discriminate].
Qed.

End AskYesNoFacts.

(** [ask_yes_no] always comes to an outcome: an answer, an exception, or a
    prompt waiting for input that stdin does not hold. *)
Lemma ask_yes_no_total prompt default w :
  fst (ask_yes_no prompt default w) <> Timeout.
Proof. apply loop_no_timeout. lia. Qed.

(** A recognized answer (in any letter case) on the first line is returned. *)
Lemma ask_yes_no_answer prompt default s rest w b :
  stdin w = Line s :: rest ->
  answers !! lower s = Some b ->
  ask_yes_no prompt default w = (Ret b, asked prompt 1 rest w).
Proof.
  intros Hin Hb. unfold ask_yes_no. rewrite loop_continue by reflexivity.
  unfold bind. rewrite (body_line _ _ _ s rest) by assumption.
  assert (Hne : String.eqb (lower s) "" = false).
  { destruct (lower s); [discriminate Hb | reflexivity]. }
  unfold IOTools.ans_of_line. rewrite Hne, asked_1.
  destruct (length (stdin w)); cbn [ask_yes_no_loop in_answers];
    rewrite bool_decide_eq_true_2 by (rewrite Hb; eauto);
    unfold answers_get; cbn [mbind option_bind]; now rewrite Hb.
Qed.

(** C6 (as amended). For every sequence of input lines that are not one of
    y/yes/n/no once lowercased, an empty line counting as the configured
    default, [ask_yes_no] does not return: it has asked again after each
    line and waits at the prompt.  When end-of-file comes after such lines
    and the default is not a recognized answer ([None] included), it raises
    EOFError. *)
Theorem ask_yes_no_asks_again (prompt : string) (default : option string)
    (ls : list string) (w : world) :
  Forall (fun l => asks_again default l = true) ls ->
  (stdin w = map Line ls ->
   ask_yes_no prompt default w = (Blocked, asked prompt (S (length ls)) [] w)) /\
  (forall rest,
     in_answers default = false ->
     stdin w = map Line ls ++ EOF :: rest ->
     ask_yes_no prompt default w
     = (Raise EOFError, asked prompt (S (length ls)) rest w)).
Proof.
  intros Hall. split.
  - intros Hin. rewrite <- (app_nil_r (map Line ls)) in Hin.
    unfold ask_yes_no.
    replace (S (length (stdin w))) with (length ls + 1)%nat
      by (rewrite Hin, length_app, length_map; cbn; lia).
    rewrite (loop_skips_lines_from _ _ ls 1 []) by assumption.
    rewrite loop_continue by reflexivity. unfold bind.
    rewrite body_blocked by reflexivity.
    unfold IOTools.asked, write; cbn. rewrite <- app_assoc.
    now rewrite <- replicate_S_end.
  - intros rest Hdef Hin. unfold ask_yes_no.
    replace (S (length (stdin w))) with (length ls + S (S (length rest)))%nat
      by (rewrite Hin, length_app, length_map; cbn; lia).
    rewrite (loop_skips_lines_from _ _ ls _ (EOF :: rest)) by assumption.
    rewrite loop_continue by reflexivity. unfold bind.
    rewrite (body_eof _ _ _ rest) by reflexivity. rewrite Hdef.
    now rewrite asked_S.
Qed.

(** C6, as first stated, fails: an empty line is not one of y/yes/n/no, yet
    with the default "y" the function returns (the default's answer)
    instead of asking again. *)
Lemma ask_yes_no_empty_line_returns_default :
  in_answers (Some (lower "")) = false /\
  ask_yes_no "Continue?" (Some "y")
    {| environ := ∅; stdin := [Line ""]; stdout := []; calls := [] |}
  = (Ret true,
     {| environ := ∅; stdin := []; stdout := [Prompt "Continue? "]; calls := [] |}).
Proof. split; reflexivity. Qed.

(** Three unrecognized lines, no default: still asking; with end-of-file
    after them: EOFError. *)
Lemma ask_yes_no_asks_again_witness :
  (ask_yes_no "Continue?" None
     {| environ := ∅; stdin := map Line ["maybe"; ""; "Yes please"];
        stdout := []; calls := [] |}
   = (Blocked,
      asked "Continue?" 4 []
        {| environ := ∅; stdin := map Line ["maybe"; ""; "Yes please"];
           stdout := []; calls := [] |})) /\
  (ask_yes_no "Continue?" None
     {| environ := ∅; stdin := map Line ["maybe"; ""; "Yes please"] ++ [EOF];
        stdout := []; calls := [] |}
   = (Raise EOFError,
      asked "Continue?" 4 []
        {| environ := ∅; stdin := map Line ["maybe"; ""; "Yes please"] ++ [EOF];
           stdout := []; calls := [] |})).
Proof.
  split.
  - apply (ask_yes_no_asks_again "Continue?" None ["maybe"; ""; "Yes please"]
             {| environ := ∅; stdin := map Line ["maybe"; ""; "Yes please"];
                stdout := []; calls := [] |}).
    + repeat constructor.
    + reflexivity.
  - apply (ask_yes_no_asks_again "Continue?" None ["maybe"; ""; "Yes please"]
             {| environ := ∅; stdin := map Line ["maybe"; ""; "Yes please"] ++ [EOF];
                stdout := []; calls := [] |}).
    + repeat constructor.
    + reflexivity.
    + reflexivity.
Defined.

(** ** [Editor.edit_files] *)

Section EditFilesFacts.

Variable os_call : list (list string) -> list string -> proc_status.
Variable self : Editor.

#[local] Abbreviation argv_of := (IOTools.argv_of self).
#[local] Abbreviation status_at := (IOTools.status_at os_call self).
#[local] Abbreviation all_zero := (IOTools.all_zero os_call self).

Lemma status_at_0 history fname rest :
  status_at history (fname :: rest) 0 = Some (os_call history (argv_of fname)).
Proof. unfold IOTools.status_at. cbn. now rewrite app_nil_r. Qed.

Lemma status_at_S history fname rest i :
  status_at history (fname :: rest) (S i)
  = status_at (history ++ [argv_of fname]) rest i.
Proof.
  unfold IOTools.status_at. cbn [lookup list_lookup take map].
  destruct (rest !! i); [|reflexivity].
  now rewrite <- app_assoc.
Qed.

(** One turn of the loop of [edit_files]. *)
Lemma edit_files_loop_cons n ask idx fname rest w :
  edit_files_loop os_call self n ask idx (fname :: rest) w =
  match os_call (calls w) (argv_of fname) with
  | Exited rc =>
      if rc =? 0 then
        if ask && negb (idx =? n - 1) then
          match _user_wants_to_exit (log_call (argv_of fname) w) with
          | (Ret true, w2) => (Ret 0, w2)
          | (Ret false, w2) => edit_files_loop os_call self n ask (idx + 1) rest w2
          | (Raise e, w2) => (Raise e, w2)
          | (Blocked, w2) => (Blocked, w2)
          | (Timeout, w2) => (Timeout, w2)
          end
        else edit_files_loop os_call self n ask (idx + 1) rest
               (log_call (argv_of fname) w)
      else (Ret rc, write (Cprint (retcode_message rc fname) "red")
                      (log_call (argv_of fname) w))
  | SpawnFailed => (Raise OSError, log_call (argv_of fname) w)
  end.
Proof.
  cbn [edit_files_loop]. unfold bind at 1. rewrite edit_file_unfold.
  fold (argv_of fname).
  destruct (os_call (calls w) (argv_of fname)) as [rc|]; [|reflexivity].
  destruct (rc =? 0); cbn [negb]; [|reflexivity].
  unfold bind. destruct (ask && negb (idx =? n - 1)); [|reflexivity].
  destruct (_user_wants_to_exit _) as [[[|]| | |] w2]; reflexivity.
Qed.

End EditFilesFacts.

End IOToolsFacts.

(** * Properties of the task manager and of the autoparal hints *)

Module TasksFacts.
Import Tasks.

(** ** Parsing *)

Lemma QueueAdapter_from_dict_initial v q :
  QueueAdapter.from_dict v = Some q -> initial q.
Proof.
  unfold QueueAdapter.from_dict. intros H. simplify_option_eq.
  split; reflexivity.
Qed.

Lemma QueueAdapter_as_dict_from_dict q :
  initial q -> QueueAdapter.from_dict (QueueAdapter.as_dict q) = Some q.
Proof.
  destruct q as [prio [qt qn qp] [tl minc maxc] hw jb mpi omp].
  intros [Hmpi Homp]. cbn in Hmpi, Homp. subst. reflexivity.
Qed.

Lemma mapM_from_dict_initial vs qs :
  mapM QueueAdapter.from_dict vs = Some qs -> Forall initial qs.
Proof.
  intros H. apply mapM_Some in H.
  induction H as [|v q vs qs Hq _ IH]; constructor;
    eauto using QueueAdapter_from_dict_initial.
Qed.

Lemma mapM_as_dict_from_dict qs :
  Forall initial qs ->
  mapM QueueAdapter.from_dict (map QueueAdapter.as_dict qs) = Some qs.
Proof.
  intros H. apply mapM_Some.
  induction H as [|q qs Hq _ IH]; constructor;
    auto using QueueAdapter_as_dict_from_dict.
Qed.

(** C1. Loading the sample manager document gives a manager with
    [num_cores == 4], [mpi_procs == 4] and [omp_threads == 1]: without an
    autoparal policy, one MPI process per core of the minimum-core limit
    (4) and one thread. *)
Theorem from_string_sample_counts :
  exists m,
    TaskManager.from_dict MANAGER = Some m /\
    autoparal (policy m) = 0 /\
    TaskManager.num_cores m = Some 4 /\
    TaskManager.mpi_procs m = Some 4 /\
    TaskManager.omp_threads m = Some 1.
Proof. eexists. repeat split; reflexivity. Qed.

(** ** Serialization and derived managers *)

(** What [to_shell_manager] does to the memory, for any manager: one new
    object, the overridden clone; every other object, the receiver
    included, is as it was. *)
Lemma to_shell_manager_memory (h : gmap ref TaskManager) (self : ref)
    (m : TaskManager) (n : Z) :
  h !! self = Some m ->
  exists new,
    to_shell_manager self n h
    = Some (new, <[new := TaskManager.set_mpi_procs n
                             (TaskManager.override_shell n m)]> h) /\
    h !! new = None /\ new <> self.
Proof.
  intros Hself.
  assert (Hfresh : h !! fresh (dom h) = None).
  { apply not_elem_of_dom, is_fresh. }
  exists (fresh (dom h)). split; [|split].
  - unfold to_shell_manager, and_then, read, new_object, mutate.
    rewrite Hself, !lookup_insert_eq, !insert_insert_eq. reflexivity.
  - exact Hfresh.
  - intros Heq. rewrite Heq, Hself in Hfresh. discriminate.
Qed.

(** The memory does express a method that changes its receiver: setting
    the processes of the sample manager in place changes what is read
    through the same reference. *)
Lemma set_mpi_procs_in_place (h : gmap ref TaskManager) (self : ref)
    (slurm_manager : TaskManager) :
  TaskManager.from_dict MANAGER = Some slurm_manager ->
  h !! self = Some slurm_manager ->
  exists h',
    mutate self (TaskManager.set_mpi_procs 1) h = Some (tt, h') /\
    attr TaskManager.num_cores self h = Some 4 /\
    attr TaskManager.num_cores self h' = Some 1.
Proof.
  intros Hparse Hself. injection Hparse as <-.
  eexists. unfold mutate, attr. rewrite Hself. split; [reflexivity|].
  rewrite lookup_insert_eq. split; reflexivity.
Qed.

(** C2. [to_shell_manager(mpi_procs=1)], called on the manager parsed from
    the sample, returns a new manager object with [mpi_procs == 1],
    [num_cores == 1] and no queue; the object it was called on is not
    modified, its [num_cores] read afterwards is still 4 (and no other
    object in memory changes either). *)
Theorem to_shell_manager_leaves_original
    (h : gmap ref TaskManager) (self : ref) (slurm_manager : TaskManager) :
  TaskManager.from_dict MANAGER = Some slurm_manager ->
  h !! self = Some slurm_manager ->
  exists (shell_manager : ref) (h' : gmap ref TaskManager),
    to_shell_manager self 1 h = Some (shell_manager, h') /\
    shell_manager <> self /\
    attr TaskManager.mpi_procs shell_manager h' = Some 1 /\
    attr TaskManager.num_cores shell_manager h' = Some 1 /\
    attr TaskManager.has_queue shell_manager h' = Some false /\
    attr TaskManager.num_cores self h' = Some 4 /\
    h' !! self = Some slurm_manager /\
    (forall r, r <> shell_manager -> h' !! r = h !! r).
Proof.
  intros Hparse Hself.
  destruct (to_shell_manager_memory h self slurm_manager 1 Hself)
    as (new & Hrun & Hnew & Hne).
  exists new, (<[new := TaskManager.set_mpi_procs 1
                          (TaskManager.override_shell 1 slurm_manager)]> h).
  injection Hparse as <-.
  split; [exact Hrun|]. split; [exact Hne|].
  unfold attr. rewrite lookup_insert_eq, lookup_insert_ne, Hself by exact Hne.
  repeat split; try reflexivity.
  intros r Hr. now rewrite lookup_insert_ne.
Qed.

(** C3. A manager parsed from a document (the sample in particular) is
    given back by [from_dict] of its [as_dict]. *)
Theorem as_dict_from_dict_roundtrip (v : value) (m : TaskManager) :
  TaskManager.from_dict v = Some m ->
  TaskManager.from_dict (TaskManager.as_dict m) = Some m.
Proof.
  unfold TaskManager.from_dict at 1. intros H.
  destruct (to_items v) as [d|]; [cbn in H|discriminate].
  destruct (match dict_get "policy" d with
            | Some p => _ | None => _ end) as [pol|]; [cbn in H|discriminate].
  destruct (dict_get "qadapters" d ≫= to_list) as [qs|]; [cbn in H|discriminate].
  destruct (mapM QueueAdapter.from_dict qs) as [qds|] eqn:Hqs; [cbn in H|discriminate].
  injection H as <-.
  apply mapM_from_dict_initial in Hqs.
  unfold TaskManager.from_dict, TaskManager.as_dict. cbn.
  rewrite mapM_as_dict_from_dict by assumption. destruct pol. reflexivity.
Qed.

(** The product of processes and threads becomes both core limits of every
    queue adapter, for any manager. *)
Lemma new_with_fixed_mpi_omp_limits m mpi omp :
  Forall (fun qad => min_cores (limits qad) = mpi * omp /\
                     max_cores (limits qad) = mpi * omp /\
                     QueueAdapter.num_cores qad = mpi * omp)
         (qads (TaskManager.new_with_fixed_mpi_omp m mpi omp)).
Proof.
  unfold TaskManager.new_with_fixed_mpi_omp. cbn.
  apply Forall_map, Forall_forall. intros q _. repeat split.
Qed.

(** C4. [new_with_fixed_mpi_omp(mpi_procs=5, omp_threads=2)] on the sample
    manager gives a manager with [num_cores == 10 = 5 * 2] whose queue
    adapters all have [min_cores == 10] and [max_cores == 10]. *)
Theorem new_with_fixed_mpi_omp_sample :
  exists slurm_manager,
    TaskManager.from_dict MANAGER = Some slurm_manager /\
    let fixed_manager := TaskManager.new_with_fixed_mpi_omp slurm_manager 5 2 in
    autoparal (policy fixed_manager) = 0 /\
    TaskManager.mpi_procs fixed_manager = Some 5 /\
    TaskManager.num_cores fixed_manager = Some 10 /\
    Forall (fun qad => min_cores (limits qad) = 10 /\ max_cores (limits qad) = 10)
           (qads fixed_manager).
Proof.
  eexists. split; [reflexivity|]. cbv zeta.
  repeat split; try reflexivity.
  eapply Forall_impl; [apply new_with_fixed_mpi_omp_limits|].
  intros q (Hmin & Hmax & _). split; assumption.
Qed.

(** ** Autoparal hints *)

(** C5. Parsing the sample Autoparal document gives hints with
    [max_cores == 4], [max_mem_per_proc == 15.77],
    [max_speedup == 3.333333332] (the largest efficiency * tot_ncpus,
    0.833333333 * 4 in double precision) and [max_efficiency == 1.0]. *)
Theorem ParalHints_sample_maxima :
  exists hints,
    ParalHints.from_doc AUTOPARAL = Some hints /\
    ParalHints.max_cores hints = Some 4 /\
    ParalHints.max_mem_per_proc hints = Some 15.77%float /\
    ParalHints.max_speedup hints = Some 3.333333332%float /\
    ParalHints.max_speedup hints
      = py_max PrimFloat.ltb
          (map (fun c => PrimFloat.mul (efficiency c) (float_of_Z (tot_ncpus c)))
               (confs hints)) /\
    ParalHints.max_efficiency hints = Some 1.0%float.
Proof. eexists. repeat split; reflexivity. Qed.

(** The sample manager, held at reference 1. *)
Lemma to_shell_manager_leaves_original_witness :
  exists slurm_manager,
    TaskManager.from_dict MANAGER = Some slurm_manager /\
    exists shell_manager h',
      to_shell_manager 1%positive 1 {[ 1%positive := slurm_manager ]}
      = Some (shell_manager, h') /\
      shell_manager <> 1%positive /\
      attr TaskManager.mpi_procs shell_manager h' = Some 1 /\
      attr TaskManager.num_cores shell_manager h' = Some 1 /\
      attr TaskManager.has_queue shell_manager h' = Some false /\
      attr TaskManager.num_cores 1%positive h' = Some 4 /\
      h' !! 1%positive = Some slurm_manager /\
      (forall r, r <> shell_manager ->
                 h' !! r = ({[ 1%positive := slurm_manager ]} : gmap ref TaskManager) !! r).
Proof.
  eexists. split; [reflexivity|].
  apply (to_shell_manager_leaves_original _ 1%positive).
  - reflexivity.
  - apply lookup_singleton_eq.
Defined.

Lemma as_dict_from_dict_roundtrip_witness :
  exists slurm_manager,
    TaskManager.from_dict MANAGER = Some slurm_manager /\
    TaskManager.from_dict (TaskManager.as_dict slurm_manager) = Some slurm_manager.
Proof.
  eexists. split; [reflexivity|].
  apply (as_dict_from_dict_roundtrip MANAGER). reflexivity.
Defined.

End TasksFacts.

(** * Further properties of [abipy.tools.iotools] *)

Module IOToolsMore.
Import IO IOTools IOToolsFacts.
Local Open Scope io_scope.
Local Open Scope list_scope.

(** ** [ask_yes_no] *)

Section AskYesNoMore.

Variables (prompt : string) (default : option string).

Lemma in_answers_get ans :
  in_answers ans = true -> exists b, ans ≫= (answers !!.) = Some b.
Proof.
  destruct ans as [s|]; [|discriminate]. cbn.
  intros H. apply bool_decide_eq_true in H as [b Hb]. eauto.
Qed.

Lemma loop_answered fuel ans b w :
  ans ≫= (answers !!.) = Some b ->
  ask_yes_no_loop fuel prompt default ans w = (Ret b, w).
Proof.
  intros Hb.
  assert (Hin : in_answers ans = true).
  { destruct ans as [s|]; [|discriminate]. cbn in *.
    apply bool_decide_eq_true. eauto. }
  destruct fuel; cbn [ask_yes_no_loop]; rewrite Hin;
    unfold answers_get; now rewrite Hb.
Qed.

(** The loop skips every event after which the question is asked again. *)
Lemma loop_skips_events (evs : list stdin_event) : forall fuel n rest w,
  Forall (fun e => ignored default e = true) evs ->
  ask_yes_no_loop (length evs + fuel) prompt default None
    (asked prompt n (evs ++ rest) w)
  = ask_yes_no_loop fuel prompt default None
      (asked prompt (length evs + n) rest w).
Proof.
  induction evs as [|e evs IH]; intros fuel n rest w Hall; [reflexivity|].
  apply Forall_cons in Hall as [He Hall].
  cbn [length Nat.add app]. rewrite loop_continue by reflexivity.
  unfold bind. destruct e as [l| |]; [| |discriminate He].
  - rewrite (body_line _ _ _ l (evs ++ rest)) by reflexivity.
    rewrite asked_S.
    rewrite (loop_ans_irrelevant _ _ _ (ans_of_line default l) None)
      by (try reflexivity; now apply negb_true_iff).
    rewrite IH by assumption. now rewrite Nat.add_succ_r.
  - rewrite (body_interrupt _ _ _ (evs ++ rest)) by reflexivity.
    rewrite asked_S, IH by assumption. now rewrite Nat.add_succ_r.
Qed.

Lemma loop_skips_events_from (evs : list stdin_event) fuel rest w :
  Forall (fun e => ignored default e = true) evs ->
  stdin w = evs ++ rest ->
  ask_yes_no_loop (length evs + fuel) prompt default None w
  = ask_yes_no_loop fuel prompt default None (asked prompt (length evs) rest w).
Proof.
  intros Hall Hin.
  pose proof (loop_skips_events evs fuel 0 rest w Hall) as H.
  rewrite <- Hin, asked_0, Nat.add_0_r in H. exact H.
Qed.

Lemma ask_yes_no_skip (evs : list stdin_event) e rest w :
  Forall (fun e => ignored default e = true) evs ->
  stdin w = evs ++ e :: rest ->
  ask_yes_no prompt default w
  = (ans' <- ask_yes_no_body prompt default None;
     ask_yes_no_loop (S (length rest)) prompt default ans')
      (asked prompt (length evs) (e :: rest) w).
Proof.
  intros Hall Hin. unfold ask_yes_no.
  replace (S (length (stdin w))) with (length evs + S (S (length rest)))%nat
    by (rewrite Hin, length_app; cbn; lia).
  rewrite (loop_skips_events_from evs _ (e :: rest)) by assumption.
  now rewrite loop_continue.
Qed.

(** The only exception that leaves the loop is the EOFError of a run
    without a recognized default. *)
Lemma loop_raise fuel : forall ans w e,
  fst (ask_yes_no_loop fuel prompt default ans w) = Raise e ->
  e = EOFError /\ in_answers default = false.
Proof.
  induction fuel as [|fuel IH]; intros ans w e.
  - cbn [ask_yes_no_loop]. destruct (in_answers ans) eqn:Hans; [|discriminate].
    destruct (in_answers_get _ Hans) as [b Hb].
    unfold answers_get. rewrite Hb. discriminate.
  - destruct (in_answers ans) eqn:Hans.
    + destruct (in_answers_get _ Hans) as [b Hb].
      rewrite (loop_answered _ _ b) by assumption. discriminate.
    + rewrite loop_continue by assumption. unfold bind.
      destruct (stdin w) as [|[s| |] rest] eqn:Hin.
      * rewrite body_blocked by assumption. discriminate.
      * rewrite (body_line _ _ _ s rest) by assumption. apply IH.
      * rewrite (body_interrupt _ _ _ rest) by assumption. apply IH.
      * rewrite (body_eof _ _ _ rest) by assumption.
        destruct (in_answers default) eqn:Hd; [apply IH|].
        cbn. intros [= <-]. now split.
Qed.

(** What a run reads and writes: [c] events read, one prompt for each and
    one more when it waits for input, then at most one empty line. *)
Lemma loop_accounting fuel : forall ans w,
  (length (stdin w) < fuel)%nat ->
  exists (c : nat) (extra : list output),
    environ (snd (ask_yes_no_loop fuel prompt default ans w)) = environ w /\
    calls (snd (ask_yes_no_loop fuel prompt default ans w)) = calls w /\
    stdin (snd (ask_yes_no_loop fuel prompt default ans w)) = drop c (stdin w) /\
    stdout (snd (ask_yes_no_loop fuel prompt default ans w))
      = stdout w
        ++ replicate (c + match fst (ask_yes_no_loop fuel prompt default ans w) with
                           | Blocked => 1 | _ => 0 end)
             (Prompt (prompt ++ " ")%string)
        ++ extra /\
    (extra = [] \/ (extra = [Print ""] /\ in_answers default = true)).
Proof.
  induction fuel as [|fuel IH]; intros ans w Hlen; [lia|].
  destruct (in_answers ans) eqn:Hans.
  { destruct (in_answers_get _ Hans) as [b Hb].
    rewrite (loop_answered _ _ b) by assumption.
    exists 0%nat, []. cbn. rewrite ?app_nil_r, <- ?app_assoc. repeat split; auto. }
  rewrite loop_continue by assumption. unfold bind.
  destruct (stdin w) as [|[s| |] rest] eqn:Hin; cbn in Hlen.
  - rewrite body_blocked by assumption.
    exists 0%nat, []. cbn. rewrite ?Hin, ?app_nil_r, <- ?app_assoc. repeat split; auto.
  - rewrite (body_line _ _ _ s rest) by assumption.
    destruct (IH (ans_of_line default s)
                (set_stdin (write (Prompt (prompt ++ " ")%string) w) rest))
      as (c & extra & He & Hc & Hi & Ho & Hx); [cbn; lia|].
    exists (S c), extra. rewrite He, Hc, Hi, Ho. cbn.
    rewrite ?app_nil_r, <- ?app_assoc. repeat split; auto.
  - rewrite (body_interrupt _ _ _ rest) by assumption.
    destruct (IH ans (set_stdin (write (Prompt (prompt ++ " ")%string) w) rest))
      as (c & extra & He & Hc & Hi & Ho & Hx); [cbn; lia|].
    exists (S c), extra. rewrite He, Hc, Hi, Ho. cbn.
    rewrite ?app_nil_r, <- ?app_assoc. repeat split; auto.
  - rewrite (body_eof _ _ _ rest) by assumption.
    destruct (in_answers default) eqn:Hd.
    + destruct (in_answers_get _ Hd) as [b Hb].
      rewrite (loop_answered _ _ b) by assumption.
      exists 1%nat, [Print ""]. cbn. rewrite ?app_nil_r, <- ?app_assoc. repeat split; auto.
    + exists 1%nat, []. cbn. rewrite ?app_nil_r, <- ?app_assoc. repeat split; auto.
Qed.

End AskYesNoMore.

(** X1. The first line that is one of y/yes/n/no, in any letter case,
    decides: the lines that do not answer and the interrupts before it only
    make [ask_yes_no] ask again, and the input after it is left unread. *)
Theorem ask_yes_no_first_answer (prompt : string) (default : option string)
    (evs : list stdin_event) (s : string) (b : bool)
    (rest : list stdin_event) (w : world) :
  Forall (fun e => ignored default e = true) evs ->
  stdin w = evs ++ Line s :: rest ->
  answers !! lower s = Some b ->
  ask_yes_no prompt default w = (Ret b, asked prompt (S (length evs)) rest w).
Proof.
  intros Hall Hin Hb.
  rewrite (ask_yes_no_skip _ _ evs (Line s) rest) by assumption.
  unfold bind. rewrite (body_line _ _ _ s rest) by reflexivity.
  rewrite asked_S.
  assert (Hne : String.eqb (lower s) "" = false).
  { destruct (lower s); [discriminate Hb | reflexivity]. }
  unfold ans_of_line. rewrite Hne.
  now apply loop_answered.
Qed.

(** X2. End-of-file is treated as the default answer: after events that
    only make it ask again, [ask_yes_no] with a recognized default returns
    the default's answer at end-of-file, after printing an empty line. *)
Theorem ask_yes_no_eof_default (prompt : string) (d : string)
    (evs : list stdin_event) (b : bool) (rest : list stdin_event) (w : world) :
  Forall (fun e => ignored (Some d) e = true) evs ->
  stdin w = evs ++ EOF :: rest ->
  answers !! d = Some b ->
  ask_yes_no prompt (Some d) w
  = (Ret b, write (Print "") (asked prompt (S (length evs)) rest w)).
Proof.
  intros Hall Hin Hb.
  rewrite (ask_yes_no_skip _ _ evs EOF rest) by assumption.
  unfold bind. rewrite (body_eof _ _ _ rest) by reflexivity.
  assert (Hd : in_answers (Some d) = true).
  { cbn. apply bool_decide_eq_true. eauto. }
  rewrite Hd, asked_S. now apply loop_answered.
Qed.

(** X3. An empty line is answered by the default: with a recognized default
    the empty line returns the default's answer (and nothing is printed). *)
Theorem ask_yes_no_empty_line_default (prompt : string) (d : string)
    (evs : list stdin_event) (b : bool) (rest : list stdin_event) (w : world) :
  Forall (fun e => ignored (Some d) e = true) evs ->
  stdin w = evs ++ Line "" :: rest ->
  answers !! d = Some b ->
  ask_yes_no prompt (Some d) w = (Ret b, asked prompt (S (length evs)) rest w).
Proof.
  intros Hall Hin Hb.
  rewrite (ask_yes_no_skip _ _ evs (Line "") rest) by assumption.
  unfold bind. rewrite (body_line _ _ _ "" rest) by reflexivity.
  rewrite asked_S. now apply loop_answered.
Qed.

(** X4. [ask_yes_no] lets one exception out, the EOFError of a run whose
    default is not a recognized answer: an interrupt is swallowed, and with
    a recognized default the function never raises. *)
Theorem ask_yes_no_raises_only_EOFError (prompt : string)
    (default : option string) (w : world) (e : exn) :
  fst (ask_yes_no prompt default w) = Raise e ->
  e = EOFError /\ in_answers default = false.
Proof. apply loop_raise. Qed.

(** X5. [ask_yes_no] leaves the environment and the call log alone, reads
    the first [c] events of stdin and no more, and writes one prompt per
    event read, one more when it ends waiting for input, followed by at
    most one empty line (the one of an end-of-file answered by the
    default). *)
Theorem ask_yes_no_reads_and_writes (prompt : string)
    (default : option string) (w : world) :
  exists (c : nat) (extra : list output),
    environ (snd (ask_yes_no prompt default w)) = environ w /\
    calls (snd (ask_yes_no prompt default w)) = calls w /\
    stdin (snd (ask_yes_no prompt default w)) = drop c (stdin w) /\
    stdout (snd (ask_yes_no prompt default w))
      = stdout w
        ++ replicate (c + match fst (ask_yes_no prompt default w) with
                           | Blocked => 1 | _ => 0 end)
             (Prompt (prompt ++ " ")%string)
        ++ extra /\
    (extra = [] \/ (extra = [Print ""] /\ in_answers default = true)).
Proof. apply loop_accounting. lia. Qed.

Lemma ascii_lower_idem c : ascii_lower (ascii_lower c) = ascii_lower c.
Proof. destruct c as [[] [] [] [] [] [] [] []]; reflexivity. Qed.

Lemma lower_idem s : lower (lower s) = lower s.
Proof.
  induction s as [|c s IH]; [reflexivity|].
  cbn. now rewrite ascii_lower_idem, IH.
Qed.

(** X6. The match is not case sensitive: two lines that are equal once
    lowercased give the same run of [ask_yes_no]. *)
Theorem ask_yes_no_case_insensitive (prompt : string) (default : option string)
    (s1 s2 : string) (rest : list stdin_event) (w : world) :
  lower s1 = lower s2 ->
  ask_yes_no prompt default (set_stdin w (Line s1 :: rest))
  = ask_yes_no prompt default (set_stdin w (Line s2 :: rest)).
Proof.
  intros Hlow. unfold ask_yes_no. cbn [stdin set_stdin length].
  rewrite !loop_continue by reflexivity. unfold bind.
  rewrite (body_line _ _ _ s1 rest), (body_line _ _ _ s2 rest) by reflexivity.
  unfold ans_of_line. now rewrite Hlow.
Qed.

(** An interrupt, a line that does not answer, then "Yes". *)
Lemma ask_yes_no_first_answer_witness :
  ask_yes_no "Go?" None
    {| environ := ∅; stdin := [CtrlC; Line "what"; Line "Yes"; Line "n"];
       stdout := []; calls := [] |}
  = (Ret true,
     {| environ := ∅; stdin := [Line "n"];
        stdout := [Prompt "Go? "; Prompt "Go? "; Prompt "Go? "]; calls := [] |}).
Proof.
  apply (ask_yes_no_first_answer "Go?" None [CtrlC; Line "what"] "Yes" true
           [Line "n"]
           {| environ := ∅; stdin := [CtrlC; Line "what"; Line "Yes"; Line "n"];
              stdout := []; calls := [] |}).
  - repeat constructor.
  - reflexivity.
  - reflexivity.
Defined.

Lemma ask_yes_no_eof_default_witness :
  ask_yes_no "Go?" (Some "n")
    {| environ := ∅; stdin := [Line "what"; EOF]; stdout := []; calls := [] |}
  = (Ret false,
     {| environ := ∅; stdin := [];
        stdout := [Prompt "Go? "; Prompt "Go? "; Print ""]; calls := [] |}).
Proof.
  apply (ask_yes_no_eof_default "Go?" "n" [Line "what"] false []
           {| environ := ∅; stdin := [Line "what"; EOF]; stdout := [];
              calls := [] |}).
  - repeat constructor.
  - reflexivity.
  - reflexivity.
Defined.

Lemma ask_yes_no_empty_line_default_witness :
  ask_yes_no "Go?" (Some "yes")
    {| environ := ∅; stdin := [Line "  "; Line ""; Line "n"]; stdout := [];
       calls := [] |}
  = (Ret true,
     {| environ := ∅; stdin := [Line "n"];
        stdout := [Prompt "Go? "; Prompt "Go? "]; calls := [] |}).
Proof.
  apply (ask_yes_no_empty_line_default "Go?" "yes" [Line "  "] true [Line "n"]
           {| environ := ∅; stdin := [Line "  "; Line ""; Line "n"];
              stdout := []; calls := [] |}).
  - repeat constructor.
  - reflexivity.
  - reflexivity.
Defined.

Lemma ask_yes_no_raises_only_EOFError_witness :
  EOFError = EOFError /\ in_answers (Some "Y") = false.
Proof.
  apply (ask_yes_no_raises_only_EOFError "Go?" (Some "Y")
           {| environ := ∅; stdin := [Line ""; EOF]; stdout := []; calls := [] |}
           EOFError).
  reflexivity.
Defined.

Lemma ask_yes_no_case_insensitive_witness :
  ask_yes_no "Go?" None
    (set_stdin {| environ := ∅; stdin := []; stdout := []; calls := [] |}
       [Line "YeS"])
  = ask_yes_no "Go?" None
      (set_stdin {| environ := ∅; stdin := []; stdout := []; calls := [] |}
         [Line "yes"]).
Proof.
  apply (ask_yes_no_case_insensitive "Go?" None "YeS" "yes" []
           {| environ := ∅; stdin := []; stdout := []; calls := [] |}).
  reflexivity.
Defined.

(** ** [Editor.edit_files] *)

Section EditFilesMore.

Variable os_call : list (list string) -> list string -> proc_status.
Variable self : Editor.

#[local] Abbreviation argv_of := (IOTools.argv_of self).
#[local] Abbreviation status_at := (IOTools.status_at os_call self).
#[local] Abbreviation all_zero := (IOTools.all_zero os_call self).
#[local] Abbreviation loop := (edit_files_loop os_call self).

Lemma user_wants_to_exit_answer w e rest :
  stdin w = e :: rest -> e <> CtrlC ->
  _user_wants_to_exit w
  = (Ret (stops e), set_stdin (write continue_prompt w) rest).
Proof.
  intros Hin He.
  unfold _user_wants_to_exit, bind, try_except, get_input. cbn. rewrite Hin.
  destruct e as [s| |]; [|congruence|reflexivity].
  cbn. unfold says_stop. destruct (_ || _); reflexivity.
Qed.

Lemma user_wants_to_exit_interrupt w rest :
  stdin w = CtrlC :: rest ->
  _user_wants_to_exit w
  = (Raise KeyboardInterrupt, set_stdin (write continue_prompt w) rest).
Proof.
  intros Hin.
  unfold _user_wants_to_exit, bind, try_except, get_input. cbn. now rewrite Hin.
Qed.

Lemma all_zero_head history fname rest k :
  all_zero history (fname :: rest) (S k) ->
  os_call history (argv_of fname) = Exited 0.
Proof.
  intros H. specialize (H 0%nat ltac:(lia)).
  rewrite status_at_0 in H. congruence.
Qed.

Lemma all_zero_tail history fname rest k :
  all_zero history (fname :: rest) (S k) ->
  all_zero (history ++ [argv_of fname]) rest k.
Proof.
  intros H i Hi. rewrite <- status_at_S. apply H. lia.
Qed.

Lemma status_at_app history pre post i :
  status_at history (pre ++ post) (length pre + i)
  = status_at (history ++ map argv_of pre) post i.
Proof.
  revert history. induction pre as [|f pre IH]; intros history; cbn [length map app].
  - now rewrite app_nil_r.
  - cbn [Nat.add]. rewrite status_at_S, IH, <- app_assoc. reflexivity.
Qed.

Lemma edited_nil w : edited [] 0 (stdin w) w = w.
Proof. destruct w. unfold edited. cbn. now rewrite !app_nil_r. Qed.

Lemma edited_step_ask fname cs k rest rest' w :
  edited cs k rest
    (set_stdin (write continue_prompt (log_call (argv_of fname) w)) rest')
  = edited (argv_of fname :: cs) (S k) rest w.
Proof.
  unfold edited, set_stdin, write, log_call. cbn. f_equal.
  - now rewrite <- app_assoc.
  - now rewrite <- app_assoc.
Qed.

Lemma edited_step fname cs rest w :
  edited cs 0 rest (log_call (argv_of fname) w)
  = edited (argv_of fname :: cs) 0 rest w.
Proof.
  unfold edited, log_call. cbn. f_equal. now rewrite <- app_assoc.
Qed.

(** With [ask_for_exit], the files that are not the last one of the list, when
    each is edited with status 0 and each prompt is answered to go on. *)
Lemma loop_confirmed n : forall pre post idx w conts rest,
  post <> [] ->
  idx + Z.of_nat (length (pre ++ post)) = n ->
  all_zero (calls w) (pre ++ post) (length pre) ->
  stdin w = map Line conts ++ rest ->
  Forall (fun s => says_stop s = false) conts ->
  length conts = length pre ->
  loop n true idx (pre ++ post) w
  = loop n true (idx + Z.of_nat (length pre)) post
      (edited (map argv_of pre) (length pre) rest w).
Proof.
  induction pre as [|f pre IH]; intros post idx w conts rest Hpost Hn Hz Hin Hc Hlen.
  - destruct conts; [|discriminate]. cbn in Hin. cbn [length map app].
    rewrite Z.add_0_r, <- Hin, edited_nil. reflexivity.
  - destruct conts as [|c conts]; [discriminate|].
    apply Forall_cons in Hc as [Hc Hcs].
    cbn [app]. rewrite edit_files_loop_cons.
    fold (argv_of f). rewrite (all_zero_head _ _ _ _ Hz). cbn [Z.eqb].
    assert (Hidx : (idx =? n - 1) = false).
    { apply Z.eqb_neq. rewrite length_app in Hn. cbn [length] in Hn.
      destruct post; [congruence|]. cbn [length] in Hn. lia. }
    rewrite Hidx. cbn [andb negb].
    rewrite (user_wants_to_exit_answer _ (Line c) (map Line conts ++ rest))
      by (first [exact Hin | discriminate]).
    cbn [stops]. rewrite Hc.
    rewrite (IH post (idx + 1) _ conts rest); try assumption.
    + rewrite edited_step_ask. cbn [length map]. f_equal. lia.
    + cbn [app length] in Hn. lia.
    + cbn. now apply all_zero_tail.
    + reflexivity.
    + cbn in Hlen. lia.
Qed.

(** Without [ask_for_exit], the files edited with status 0. *)
Lemma loop_unasked n : forall pre post idx w,
  all_zero (calls w) (pre ++ post) (length pre) ->
  loop n false idx (pre ++ post) w
  = loop n false (idx + Z.of_nat (length pre)) post
      (edited (map argv_of pre) 0 (stdin w) w).
Proof.
  induction pre as [|f pre IH]; intros post idx w Hz.
  - cbn [length map app]. now rewrite Z.add_0_r, edited_nil.
  - cbn [app]. rewrite edit_files_loop_cons.
    fold (argv_of f). rewrite (all_zero_head _ _ _ _ Hz). cbn [Z.eqb andb].
    rewrite IH by (cbn; now apply all_zero_tail).
    cbn [stdin log_call]. rewrite edited_step. cbn [length map]. f_equal. lia.
Qed.

Lemma loop_fail n ask idx f post w rc :
  os_call (calls w) (argv_of f) = Exited rc -> rc <> 0 ->
  loop n ask idx (f :: post) w
  = (Ret rc, write (Cprint (retcode_message rc f) "red") (log_call (argv_of f) w)).
Proof.
  intros Hcall Hrc. rewrite edit_files_loop_cons. fold (argv_of f).
  rewrite Hcall. apply Z.eqb_neq in Hrc. now rewrite Hrc.
Qed.

Lemma loop_last n ask idx f w :
  os_call (calls w) (argv_of f) = Exited 0 ->
  ask = false \/ idx = n - 1 ->
  loop n ask idx [f] w = (Ret 0, log_call (argv_of f) w).
Proof.
  intros Hcall Hno. rewrite edit_files_loop_cons. fold (argv_of f).
  rewrite Hcall. cbn [Z.eqb].
  assert (Hask : ask && negb (idx =? n - 1) = false).
  { destruct Hno as [->| ->]; [reflexivity|].
    rewrite Z.eqb_refl. now destruct ask. }
  now rewrite Hask.
Qed.

Lemma loop_asked n idx f post w e rest :
  os_call (calls w) (argv_of f) = Exited 0 ->
  idx <> n - 1 ->
  stdin w = e :: rest -> e <> CtrlC ->
  loop n true idx (f :: post) w
  = if stops e
    then (Ret 0, set_stdin (write continue_prompt (log_call (argv_of f) w)) rest)
    else loop n true (idx + 1) post
           (set_stdin (write continue_prompt (log_call (argv_of f) w)) rest).
Proof.
  intros Hcall Hidx Hin He. rewrite edit_files_loop_cons. fold (argv_of f).
  rewrite Hcall. cbn [Z.eqb]. apply Z.eqb_neq in Hidx. rewrite Hidx. cbn [andb negb].
  rewrite (user_wants_to_exit_answer _ e rest) by assumption.
  destruct (stops e); reflexivity.
Qed.

Lemma log_call_edited fname cs k rest w :
  log_call (argv_of fname) (edited cs k rest w)
  = edited (cs ++ [argv_of fname]) k rest w.
Proof.
  unfold edited, log_call. cbn. f_equal. now rewrite <- app_assoc.
Qed.

Lemma ask_edited fname cs k rest rest' w :
  set_stdin (write continue_prompt (log_call (argv_of fname) (edited cs k rest w)))
    rest'
  = edited (cs ++ [argv_of fname]) (S k) rest' w.
Proof.
  unfold edited, set_stdin, write, log_call. cbn. f_equal.
  - rewrite <- app_assoc. f_equal.
    change (continue_prompt :: replicate k continue_prompt)
      with (replicate (S k) continue_prompt).
    now rewrite replicate_S_end.
  - now rewrite <- app_assoc.
Qed.

Lemma all_zero_le history names j k :
  (j <= k)%nat -> all_zero history names k -> all_zero history names j.
Proof. intros Hjk H i Hi. apply H. lia. Qed.

Lemma all_zero_at history pre f post k :
  (length pre < k)%nat ->
  all_zero history (pre ++ f :: post) k ->
  os_call (history ++ map argv_of pre) (argv_of f) = Exited 0.
Proof.
  intros Hk H. specialize (H (length pre) Hk).
  rewrite <- (Nat.add_0_r (length pre)), status_at_app, status_at_0 in H.
  congruence.
Qed.

(** A line on which the model stops is ASCII text: white space below 128
    around the letters n or no. *)
Lemma ascii_isspace_ascii c :
  ascii_isspace c = true -> (nat_of_ascii c <? 128)%nat = true.
Proof. destruct c as [[] [] [] [] [] [] [] []]; (discriminate || reflexivity). Qed.

Lemma ascii_lower_ascii c :
  (nat_of_ascii (ascii_lower c) <? 128)%nat = true ->
  (nat_of_ascii c <? 128)%nat = true.
Proof. destruct c as [[] [] [] [] [] [] [] []]; (discriminate || reflexivity). Qed.

Lemma rstrip_empty_ascii t : rstrip t = EmptyString -> ascii_text t = true.
Proof.
  induction t as [|c t IH]; [reflexivity|]. cbn [rstrip ascii_text].
  destruct (rstrip t); [|discriminate].
  destruct (ascii_isspace c) eqn:Hc; [|discriminate].
  intros _. apply andb_true_iff. split; [now apply ascii_isspace_ascii | now apply IH].
Qed.

Lemma rstrip_ascii t : ascii_text (rstrip t) = true -> ascii_text t = true.
Proof.
  induction t as [|c t IH]; [reflexivity|]. cbn [rstrip].
  destruct (rstrip t) as [|d r] eqn:Hr.
  - destruct (ascii_isspace c) eqn:Hc; cbn [ascii_text]; intros H;
      apply andb_true_iff; split.
    + now apply ascii_isspace_ascii.
    + now apply rstrip_empty_ascii.
    + now apply andb_true_iff in H as [H _].
    + now apply rstrip_empty_ascii.
  - cbn [ascii_text]. intros H. apply andb_true_iff in H as [Hc H].
    apply andb_true_iff. split; [exact Hc | now apply IH].
Qed.

Lemma lstrip_ascii t : ascii_text (lstrip t) = true -> ascii_text t = true.
Proof.
  induction t as [|c t IH]; [reflexivity|]. cbn [lstrip].
  destruct (ascii_isspace c) eqn:Hc; [|tauto].
  intros H. cbn [ascii_text]. apply andb_true_iff.
  split; [now apply ascii_isspace_ascii | now apply IH].
Qed.

Lemma lower_ascii s : ascii_text (lower s) = true -> ascii_text s = true.
Proof.
  induction s as [|c s IH]; [reflexivity|]. cbn [lower ascii_text].
  intros H. apply andb_true_iff in H as [Hc H]. apply andb_true_iff.
  split; [now apply ascii_lower_ascii | now apply IH].
Qed.

Lemma says_stop_ascii s : says_stop s = true -> ascii_text s = true.
Proof.
  unfold says_stop, strip. intros H.
  apply lower_ascii, lstrip_ascii, rstrip_ascii.
  apply orb_true_iff in H as [H|H]; apply String.eqb_eq in H; now rewrite H.
Qed.

(** The files before the deciding one: each is edited with status 0, and
    with [ask_for_exit] each is followed by a prompt answered to go on. *)
Lemma loop_go_on (n : Z) (ask : bool) (pre post : list string) (idx : Z)
    (w : world) (conts : list string) (rest : list stdin_event) :
  post <> [] ->
  idx + Z.of_nat (length (pre ++ post)) = n ->
  all_zero (calls w) (pre ++ post) (length pre) ->
  stdin w = map Line conts ++ rest ->
  Forall (fun s => says_stop s = false) conts ->
  length conts = (if ask then length pre else 0%nat) ->
  loop n ask idx (pre ++ post) w
  = loop n ask (idx + Z.of_nat (length pre)) post
      (edited (map argv_of pre) (length conts) rest w).
Proof.
  intros Hpost Hn Hz Hin Hc Hlen. destruct ask.
  - rewrite Hlen. now apply (loop_confirmed n pre post idx w conts rest).
  - destruct conts; [|discriminate]. cbn in Hin. cbn [length].
    rewrite <- Hin. now apply loop_unasked.
Qed.

(** C10. [Editor.edit_files] on a list of files, the answers to the
    continue prompts being ASCII text.  (1) When every edit returns 0 and
    no answer stops, it edits all the files in order and returns 0.
    (2) When the user stops at the continue prompt after a file (n/no or
    end-of-file), it returns 0 and the later files are not edited.
    (3) Otherwise, at the first file whose edit does not return 0, it
    prints the warning, returns that exit status, and the editor is not run
    on any later file.  Without [ask_for_exit] there is no prompt and
    nothing is read. *)
Theorem edit_files_exit_status (l : list string) (ask_for_exit : bool)
    (conts : list string) (rest : list stdin_event) (w : world) :
  stdin w = map Line conts ++ rest ->
  Forall (fun s => ascii_text s = true) conts ->
  Forall (fun s => says_stop s = false) conts ->
  (all_zero (calls w) l (length l) ->
   length conts = (if ask_for_exit then pred (length l) else 0%nat) ->
   edit_files os_call self (Strings l) ask_for_exit w
   = (Ret 0, edited (map argv_of l) (length conts) rest w)) /\
  (forall pre f post e rest',
     l = pre ++ f :: post -> post <> [] ->
     ask_for_exit = true ->
     all_zero (calls w) l (S (length pre)) ->
     length conts = length pre ->
     rest = e :: rest' -> stops e = true ->
     edit_files os_call self (Strings l) ask_for_exit w
     = (Ret 0, edited (map argv_of (pre ++ [f])) (S (length pre)) rest' w)) /\
  (forall pre f post rc,
     l = pre ++ f :: post ->
     all_zero (calls w) l (length pre) ->
     os_call (calls w ++ map argv_of pre) (argv_of f) = Exited rc ->
     rc <> 0 ->
     length conts = (if ask_for_exit then length pre else 0%nat) ->
     edit_files os_call self (Strings l) ask_for_exit w
     = (Ret rc,
        write (Cprint (retcode_message rc f) "red")
          (edited (map argv_of (pre ++ [f])) (length conts) rest w))).
Proof.
  intros Hin _ Hc. unfold edit_files. cbn [len list_strings].
  split; [|split].
  - intros Hz Hlen. destruct l as [|x l0] using rev_ind.
    + assert (conts = []) as -> by (destruct ask_for_exit, conts; cbn in Hlen; congruence).
      cbn in Hin. cbn. unfold ret. now rewrite <- Hin, edited_nil.
    + clear IHl0. rewrite length_app in Hlen, Hz. cbn [length] in Hlen, Hz.
      replace (pred (length l0 + 1)) with (length l0) in Hlen by lia.
      rewrite (loop_go_on _ _ l0 [x] 0 w conts rest); try assumption.
      * rewrite loop_last.
        -- now rewrite log_call_edited, map_app.
        -- cbn [calls edited].
           apply (all_zero_at _ _ _ [] (length l0 + 1)); [lia|assumption].
        -- right. rewrite length_app. cbn [length]. lia.
      * discriminate.
      * reflexivity.
      * eapply all_zero_le; [|exact Hz]. lia.
  - intros pre f post e rest' -> Hpost -> Hz Hlen -> He.
    rewrite (loop_go_on _ _ pre (f :: post) 0 w conts (e :: rest'));
      try assumption; [|discriminate|reflexivity|].
    + rewrite Hlen, (loop_asked _ _ _ _ _ e rest').
      * rewrite He, ask_edited, map_app. reflexivity.
      * cbn [calls edited].
        apply (all_zero_at _ _ _ post (S (length pre))); [lia|assumption].
      * rewrite length_app. cbn [length].
        destruct post; [congruence|]. cbn [length]. lia.
      * reflexivity.
      * intros ->. discriminate He.
    + eapply all_zero_le; [|exact Hz]. lia.
  - intros pre f post rc -> Hz Hcall Hrc Hlen.
    rewrite (loop_go_on _ _ pre (f :: post) 0 w conts rest);
      try assumption; [|discriminate|reflexivity].
    rewrite (loop_fail _ _ _ _ _ _ rc) by assumption.
    now rewrite log_call_edited, map_app.
Qed.

(** X7. With [ask_for_exit] and a list of files, when every edit returns 0
    and every continue prompt is answered by something else than n/no,
    [edit_files] edits all the files in order and returns 0; it asks once
    between two files, so one answer less than there are files is read, and
    none after the last file.  The answers are ASCII text. *)
Theorem edit_files_all_confirmed (l conts : list string)
    (rest : list stdin_event) (w : world) :
  all_zero (calls w) l (length l) ->
  stdin w = map Line conts ++ rest ->
  Forall (fun s => ascii_text s = true) conts ->
  Forall (fun s => says_stop s = false) conts ->
  length conts = pred (length l) ->
  edit_files os_call self (Strings l) true w
  = (Ret 0, edited (map argv_of l) (pred (length l)) rest w).
Proof.
  intros Hz Hin _ Hc Hlen. unfold edit_files. cbn [len list_strings].
  destruct l as [|x l0] using rev_ind.
  - destruct conts; [|discriminate]. cbn in Hin. cbn. unfold ret.
    now rewrite <- Hin, edited_nil.
  - clear IHl0. rewrite length_app in Hlen, Hz. cbn [length] in Hlen, Hz.
    replace (pred (length l0 + 1)) with (length l0) in Hlen by lia.
    rewrite (loop_confirmed _ l0 [x] 0 w conts rest); try assumption.
    + rewrite loop_last.
      * rewrite log_call_edited, length_app, map_app. cbn [length map].
        now replace (pred (length l0 + 1)) with (length l0) by lia.
      * cbn [calls edited]. apply (all_zero_at _ _ _ [] (length l0 + 1)); [lia|assumption].
      * right. rewrite length_app. cbn [length]. lia.
    + discriminate.
    + reflexivity.
    + eapply all_zero_le; [|exact Hz]. lia.
Qed.

(** X8. With [ask_for_exit], a stop at the continue prompt (n or no in any
    letter case and with ASCII white space around, or end-of-file) ends the
    editing: the files after the one just edited are not opened and
    [edit_files] returns 0.  The answers before the stop are ASCII text. *)
Theorem edit_files_stopped (pre : list string) (f : string) (post : list string)
    (conts : list string) (e : stdin_event) (rest : list stdin_event)
    (w : world) :
  post <> [] ->
  all_zero (calls w) (pre ++ f :: post) (S (length pre)) ->
  stdin w = map Line conts ++ e :: rest ->
  Forall (fun s => ascii_text s = true) conts ->
  Forall (fun s => says_stop s = false) conts ->
  length conts = length pre ->
  stops e = true ->
  edit_files os_call self (Strings (pre ++ f :: post)) true w
  = (Ret 0, edited (map argv_of (pre ++ [f])) (S (length pre)) rest w).
Proof.
  intros Hpost Hz Hin _ Hc Hlen He. unfold edit_files. cbn [len list_strings].
  rewrite (loop_confirmed _ pre (f :: post) 0 w conts (e :: rest));
    try assumption; [|discriminate|reflexivity|].
  - rewrite (loop_asked _ _ _ _ _ e rest).
    + rewrite He, ask_edited, map_app. reflexivity.
    + cbn [calls edited]. apply (all_zero_at _ _ _ post (S (length pre))); [lia|assumption].
    + rewrite length_app. cbn [length]. destruct post; [congruence|]. cbn [length]. lia.
    + reflexivity.
    + intros ->. discriminate He.
  - eapply all_zero_le; [|exact Hz]. lia.
Qed.

(** X9. Without [ask_for_exit], when every edit returns 0, [edit_files]
    edits every file once, in order, and returns 0; it reads nothing and
    writes nothing. *)
Theorem edit_files_unasked_all (fnames : fnames_arg) (w : world) :
  all_zero (calls w) (list_strings fnames) (length (list_strings fnames)) ->
  edit_files os_call self fnames false w
  = (Ret 0, edited (map argv_of (list_strings fnames)) 0 (stdin w) w).
Proof.
  intros Hz. unfold edit_files.
  rewrite <- (app_nil_r (list_strings fnames)) at 1.
  rewrite loop_unasked by now rewrite app_nil_r.
  reflexivity.
Qed.

(** X10. Without [ask_for_exit], the first edit that does not return 0 ends
    the run: [edit_files] prints the warning for that file, returns its
    status, and the files after it are not opened. *)
Theorem edit_files_unasked_first_failure (fnames : fnames_arg)
    (pre : list string) (f : string) (post : list string) (rc : Z) (w : world) :
  list_strings fnames = pre ++ f :: post ->
  all_zero (calls w) (pre ++ f :: post) (length pre) ->
  os_call (calls w ++ map argv_of pre) (argv_of f) = Exited rc ->
  rc <> 0 ->
  edit_files os_call self fnames false w
  = (Ret rc,
     write (Cprint (retcode_message rc f) "red")
       (edited (map argv_of (pre ++ [f])) 0 (stdin w) w)).
Proof.
  intros Hnames Hz Hcall Hrc. unfold edit_files. rewrite Hnames.
  rewrite loop_unasked by assumption.
  rewrite (loop_fail _ _ _ _ _ _ rc) by assumption.
  now rewrite log_call_edited, map_app.
Qed.

(** X11. With [ask_for_exit] and a list of files, when the prompts before
    it are answered to go on, the first edit that does not return 0 ends the
    run in the same way: warning, its status returned, no later file
    opened, no further prompt.  The answers are ASCII text. *)
Theorem edit_files_asked_first_failure (pre : list string) (f : string)
    (post : list string) (conts : list string) (rest : list stdin_event)
    (rc : Z) (w : world) :
  all_zero (calls w) (pre ++ f :: post) (length pre) ->
  os_call (calls w ++ map argv_of pre) (argv_of f) = Exited rc ->
  rc <> 0 ->
  stdin w = map Line conts ++ rest ->
  Forall (fun s => ascii_text s = true) conts ->
  Forall (fun s => says_stop s = false) conts ->
  length conts = length pre ->
  edit_files os_call self (Strings (pre ++ f :: post)) true w
  = (Ret rc,
     write (Cprint (retcode_message rc f) "red")
       (edited (map argv_of (pre ++ [f])) (length pre) rest w)).
Proof.
  intros Hz Hcall Hrc Hin _ Hc Hlen. unfold edit_files. cbn [len list_strings].
  rewrite (loop_confirmed _ pre (f :: post) 0 w conts rest);
    try assumption; [|discriminate|reflexivity].
  rewrite (loop_fail _ _ _ _ _ _ rc) by assumption.
  now rewrite log_call_edited, map_app.
Qed.

(** X12. The continue prompt is asked unless [idx] is [len(fnames) - 1],
    and [len] is taken of the argument as passed: a single file name of
    ASCII text given as a bare string whose length is not 1 is followed by
    a continue prompt, which reads one event, although no file is left; the
    same name in a one-element list is not. *)
Theorem edit_files_bare_string_prompts (s : string) (e : stdin_event)
    (rest : list stdin_event) (w : world) :
  ascii_text s = true ->
  String.length s <> 1%nat ->
  os_call (calls w) (argv_of s) = Exited 0 ->
  stdin w = e :: rest ->
  e <> CtrlC ->
  edit_files os_call self (OneString s) true w
  = (Ret 0, edited [argv_of s] 1 rest w) /\
  edit_files os_call self (Strings [s]) true w
  = (Ret 0, edited [argv_of s] 0 (e :: rest) w).
Proof.
  intros _ Hlen Hcall Hin He. unfold edit_files. cbn [len list_strings length].
  split.
  - rewrite (loop_asked _ _ _ _ _ e rest) by (try assumption; lia).
    destruct (stops e); reflexivity.
  - rewrite loop_last by (try assumption; right; reflexivity).
    unfold edited, log_call. cbn. now rewrite Hin, app_nil_r.
Qed.

Lemma loop_unasked_frame n : forall todo idx w,
  environ (snd (loop n false idx todo w)) = environ w /\
  stdin (snd (loop n false idx todo w)) = stdin w /\
  (stdout (snd (loop n false idx todo w)) = stdout w \/
   exists rc f,
     rc <> 0 /\
     fst (loop n false idx todo w) = Ret rc /\
     stdout (snd (loop n false idx todo w))
       = stdout w ++ [Cprint (retcode_message rc f) "red"]).
Proof.
  induction todo as [|f todo IH]; intros idx w.
  - cbn. auto.
  - rewrite edit_files_loop_cons. fold (argv_of f).
    destruct (os_call (calls w) (argv_of f)) as [rc|]; [|cbn; auto].
    destruct (Z.eqb_spec rc 0) as [->|Hrc].
    + cbn [andb]. apply (IH (idx + 1) (log_call (argv_of f) w)).
    + cbn. split; [reflexivity|]. split; [reflexivity|].
      right. exists rc, f. auto.
Qed.

(** X13. Without [ask_for_exit], [edit_files] never reads stdin and never
    touches the environment, whatever the editors do; it writes at most one
    line, the warning of the failing edit whose status it returns. *)
Theorem edit_files_unasked_frame (fnames : fnames_arg) (w : world) :
  environ (snd (edit_files os_call self fnames false w)) = environ w /\
  stdin (snd (edit_files os_call self fnames false w)) = stdin w /\
  (stdout (snd (edit_files os_call self fnames false w)) = stdout w \/
   exists rc f,
     rc <> 0 /\
     fst (edit_files os_call self fnames false w) = Ret rc /\
     stdout (snd (edit_files os_call self fnames false w))
       = stdout w ++ [Cprint (retcode_message rc f) "red"]).
Proof. apply loop_unasked_frame. Qed.

(** X14. An interrupt at the continue prompt is not caught: after the
    prompts answered to go on (in ASCII text), it leaves [edit_files] as
    KeyboardInterrupt, the file before the prompt being the last one
    edited. *)
Theorem edit_files_interrupted (pre : list string) (f : string)
    (post : list string) (conts : list string) (rest : list stdin_event)
    (w : world) :
  post <> [] ->
  all_zero (calls w) (pre ++ f :: post) (S (length pre)) ->
  stdin w = map Line conts ++ CtrlC :: rest ->
  Forall (fun s => ascii_text s = true) conts ->
  Forall (fun s => says_stop s = false) conts ->
  length conts = length pre ->
  edit_files os_call self (Strings (pre ++ f :: post)) true w
  = (Raise KeyboardInterrupt,
     edited (map argv_of (pre ++ [f])) (S (length pre)) rest w).
Proof.
  intros Hpost Hz Hin _ Hc Hlen. unfold edit_files. cbn [len list_strings].
  rewrite (loop_confirmed _ pre (f :: post) 0 w conts (CtrlC :: rest));
    try assumption; [|discriminate|reflexivity|].
  - rewrite edit_files_loop_cons. fold (argv_of f).
    cbn [calls edited].
    rewrite (all_zero_at _ _ _ post (S (length pre))) by (try assumption; lia).
    cbn [Z.eqb].
    assert (Hidx : (0 + Z.of_nat (length pre)
                    =? Z.of_nat (length (pre ++ f :: post)) - 1) = false).
    { apply Z.eqb_neq. rewrite length_app. cbn [length].
      destruct post; [congruence|]. cbn [length]. lia. }
    rewrite Hidx. cbn [andb negb].
    rewrite (user_wants_to_exit_interrupt _ rest) by reflexivity.
    now rewrite ask_edited, map_app.
  - eapply all_zero_le; [|exact Hz]. lia.
Qed.

End EditFilesMore.

(** Three files with [ask_for_exit]: all edited when the two prompts are
    answered "y" and with an empty line; a stop by " No " at the second
    prompt; and an editor that fails with status 3 from its second call
    on. *)
Lemma edit_files_exit_status_witness :
  edit_files (fun _ _ => Exited 0) {| editor := "vi" |} (Strings ["a"; "b"; "c"]) true
    {| environ := ∅; stdin := [Line "y"; Line ""; Line "n"]; stdout := [];
       calls := [] |}
  = (Ret 0,
     {| environ := ∅; stdin := [Line "n"];
        stdout := [continue_prompt; continue_prompt];
        calls := [["vi"; "a"]; ["vi"; "b"]; ["vi"; "c"]] |}) /\
  edit_files (fun _ _ => Exited 0) {| editor := "vi" |} (Strings ["a"; "b"; "c"]) true
    {| environ := ∅; stdin := [Line "yes"; Line " No "]; stdout := [];
       calls := [] |}
  = (Ret 0,
     {| environ := ∅; stdin := [];
        stdout := [continue_prompt; continue_prompt];
        calls := [["vi"; "a"]; ["vi"; "b"]] |}) /\
  edit_files (fun h _ => match h with [] => Exited 0 | _ => Exited 3 end)
    {| editor := "vi" |} (Strings ["a"; "b"; "c"]) true
    {| environ := ∅; stdin := [Line "y"; Line "y"]; stdout := []; calls := [] |}
  = (Ret 3,
     {| environ := ∅; stdin := [Line "y"];
        stdout := [continue_prompt; Cprint "Retcode 3 while editing file: b" "red"];
        calls := [["vi"; "a"]; ["vi"; "b"]] |}).
Proof.
  split; [|split].
  - pose proof (edit_files_exit_status (fun _ _ => Exited 0) {| editor := "vi" |}
                  ["a"; "b"; "c"] true ["y"; ""] [Line "n"]
                  {| environ := ∅; stdin := [Line "y"; Line ""; Line "n"];
                     stdout := []; calls := [] |}
                  eq_refl ltac:(repeat constructor) ltac:(repeat constructor))
      as (Hall & _ & _).
    apply Hall; [|reflexivity].
    intros [|[|[|i]]] Hi; try reflexivity. cbn in Hi. lia.
  - pose proof (edit_files_exit_status (fun _ _ => Exited 0) {| editor := "vi" |}
                  ["a"; "b"; "c"] true ["yes"] [Line " No "]
                  {| environ := ∅; stdin := [Line "yes"; Line " No "];
                     stdout := []; calls := [] |}
                  eq_refl ltac:(repeat constructor) ltac:(repeat constructor))
      as (_ & Hstop & _).
    apply (Hstop ["a"] "b" ["c"] (Line " No ") []); try reflexivity;
      [discriminate|].
    intros [|[|i]] Hi; try reflexivity. cbn in Hi. lia.
  - pose proof (edit_files_exit_status
                  (fun h _ => match h with [] => Exited 0 | _ => Exited 3 end)
                  {| editor := "vi" |}
                  ["a"; "b"; "c"] true ["y"] [Line "y"]
                  {| environ := ∅; stdin := [Line "y"; Line "y"];
                     stdout := []; calls := [] |}
                  eq_refl ltac:(repeat constructor) ltac:(repeat constructor))
      as (_ & _ & Hfail).
    apply (Hfail ["a"] "b" ["c"] 3); try reflexivity; [|lia].
    intros [|i] Hi; try reflexivity. cbn in Hi. lia.
Defined.

(** Three files, the two prompts answered "y" and with an empty line. *)
Lemma edit_files_all_confirmed_witness :
  edit_files (fun _ _ => Exited 0) {| editor := "vi" |} (Strings ["a"; "b"; "c"]) true
    {| environ := ∅; stdin := [Line "y"; Line ""; Line "n"]; stdout := [];
       calls := [] |}
  = (Ret 0,
     {| environ := ∅; stdin := [Line "n"];
        stdout := [continue_prompt; continue_prompt];
        calls := [["vi"; "a"]; ["vi"; "b"]; ["vi"; "c"]] |}).
Proof.
  apply (edit_files_all_confirmed (fun _ _ => Exited 0) {| editor := "vi" |}
           ["a"; "b"; "c"] ["y"; ""] [Line "n"]
           {| environ := ∅; stdin := [Line "y"; Line ""; Line "n"]; stdout := [];
              calls := [] |}).
  - intros [|[|[|i]]] Hi; try reflexivity. cbn in Hi. lia.
  - reflexivity.
  - repeat constructor.
  - repeat constructor.
  - reflexivity.
Defined.

(** Three files, " No " at the second prompt. *)
Lemma edit_files_stopped_witness :
  edit_files (fun _ _ => Exited 0) {| editor := "vi" |} (Strings ["a"; "b"; "c"]) true
    {| environ := ∅; stdin := [Line "yes"; Line " No "]; stdout := [];
       calls := [] |}
  = (Ret 0,
     {| environ := ∅; stdin := [];
        stdout := [continue_prompt; continue_prompt];
        calls := [["vi"; "a"]; ["vi"; "b"]] |}).
Proof.
  apply (edit_files_stopped (fun _ _ => Exited 0) {| editor := "vi" |}
           ["a"] "b" ["c"] ["yes"] (Line " No ") []
           {| environ := ∅; stdin := [Line "yes"; Line " No "]; stdout := [];
              calls := [] |}).
  - discriminate.
  - intros [|[|i]] Hi; try reflexivity. cbn in Hi. lia.
  - reflexivity.
  - repeat constructor.
  - repeat constructor.
  - reflexivity.
  - reflexivity.
Defined.

Lemma edit_files_unasked_all_witness :
  edit_files (fun _ _ => Exited 0) {| editor := "vi" |} (OneString "run.abi") false
    {| environ := ∅; stdin := [Line "n"]; stdout := []; calls := [] |}
  = (Ret 0,
     {| environ := ∅; stdin := [Line "n"]; stdout := [];
        calls := [["vi"; "run.abi"]] |}).
Proof.
  apply (edit_files_unasked_all (fun _ _ => Exited 0) {| editor := "vi" |}
           (OneString "run.abi")
           {| environ := ∅; stdin := [Line "n"]; stdout := []; calls := [] |}).
  intros [|i] Hi; try reflexivity. cbn in Hi. lia.
Defined.

(** The editor fails with status 3 from the second call on. *)
Lemma edit_files_unasked_first_failure_witness :
  edit_files (fun h _ => match h with [] => Exited 0 | _ => Exited 3 end)
    {| editor := "vi" |} (Strings ["a"; "b"; "c"]) false
    {| environ := ∅; stdin := []; stdout := []; calls := [] |}
  = (Ret 3,
     {| environ := ∅; stdin := [];
        stdout := [Cprint "Retcode 3 while editing file: b" "red"];
        calls := [["vi"; "a"]; ["vi"; "b"]] |}).
Proof.
  apply (edit_files_unasked_first_failure
           (fun h _ => match h with [] => Exited 0 | _ => Exited 3 end)
           {| editor := "vi" |} (Strings ["a"; "b"; "c"]) ["a"] "b" ["c"] 3
           {| environ := ∅; stdin := []; stdout := []; calls := [] |}).
  - reflexivity.
  - intros [|i] Hi; try reflexivity. cbn in Hi. lia.
  - reflexivity.
  - lia.
Defined.

Lemma edit_files_asked_first_failure_witness :
  edit_files (fun h _ => match h with [] => Exited 0 | _ => Exited 3 end)
    {| editor := "vi" |} (Strings ["a"; "b"; "c"]) true
    {| environ := ∅; stdin := [Line "y"; Line "y"]; stdout := []; calls := [] |}
  = (Ret 3,
     {| environ := ∅; stdin := [Line "y"];
        stdout := [continue_prompt; Cprint "Retcode 3 while editing file: b" "red"];
        calls := [["vi"; "a"]; ["vi"; "b"]] |}).
Proof.
  apply (edit_files_asked_first_failure
           (fun h _ => match h with [] => Exited 0 | _ => Exited 3 end)
           {| editor := "vi" |} ["a"] "b" ["c"] ["y"] [Line "y"] 3
           {| environ := ∅; stdin := [Line "y"; Line "y"]; stdout := [];
              calls := [] |}).
  - intros [|i] Hi; try reflexivity. cbn in Hi. lia.
  - reflexivity.
  - lia.
  - reflexivity.
  - repeat constructor.
  - repeat constructor.
  - reflexivity.
Defined.

Lemma edit_files_bare_string_prompts_witness :
  edit_files (fun _ _ => Exited 0) {| editor := "vi" |} (OneString "run.abi") true
    {| environ := ∅; stdin := [Line "y"]; stdout := []; calls := [] |}
  = (Ret 0,
     {| environ := ∅; stdin := []; stdout := [continue_prompt];
        calls := [["vi"; "run.abi"]] |}) /\
  edit_files (fun _ _ => Exited 0) {| editor := "vi" |} (Strings ["run.abi"]) true
    {| environ := ∅; stdin := [Line "y"]; stdout := []; calls := [] |}
  = (Ret 0,
     {| environ := ∅; stdin := [Line "y"]; stdout := [];
        calls := [["vi"; "run.abi"]] |}).
Proof.
  apply (edit_files_bare_string_prompts (fun _ _ => Exited 0) {| editor := "vi" |}
           "run.abi" (Line "y") []
           {| environ := ∅; stdin := [Line "y"]; stdout := []; calls := [] |}).
  - reflexivity.
  - cbn. lia.
  - reflexivity.
  - reflexivity.
  - discriminate.
Defined.

Lemma edit_files_interrupted_witness :
  edit_files (fun _ _ => Exited 0) {| editor := "vi" |} (Strings ["a"; "b"]) true
    {| environ := ∅; stdin := [CtrlC; Line "y"]; stdout := []; calls := [] |}
  = (Raise KeyboardInterrupt,
     {| environ := ∅; stdin := [Line "y"]; stdout := [continue_prompt];
        calls := [["vi"; "a"]] |}).
Proof.
  apply (edit_files_interrupted (fun _ _ => Exited 0) {| editor := "vi" |}
           [] "a" ["b"] [] [Line "y"]
           {| environ := ∅; stdin := [CtrlC; Line "y"]; stdout := [];
              calls := [] |}).
  - discriminate.
  - intros [|i] Hi; try reflexivity. cbn in Hi. lia.
  - reflexivity.
  - constructor.
  - constructor.
  - reflexivity.
Defined.

(** ** [ExitStackWithFiles] *)

Section ExitStackMore.

Context {File V : Type}.
Variable cm_enter : File -> option V.

#[local] Abbreviation stack := (@ExitStackWithFiles File).

(** X15. The object entered last is the one at index [-1], and at the index
    that was the length of the stack before the call; this holds for [None]
    and for an object whose [__enter__] raised as well. *)
Theorem enter_context_last (myfile : option File) (self : stack) :
  getitem (fst (enter_context cm_enter myfile self)) (-1) = Some myfile /\
  getitem (fst (enter_context cm_enter myfile self))
    (Z.of_nat (length (files self))) = Some myfile.
Proof.
  split.
  - change (-1) with (- Z.of_nat 1).
    rewrite getitem_neg by (rewrite enter_context_files, length_app; cbn; lia).
    rewrite enter_context_files, length_app. cbn [length].
    apply list_lookup_middle. lia.
  - rewrite getitem_nonneg, enter_context_files.
    now apply list_lookup_middle.
Qed.

Lemma enter_context_callbacks (myfile : option File) (self : stack) :
  exit_callbacks (fst (enter_context cm_enter myfile self))
  = match registered cm_enter myfile with
    | Some f => f :: exit_callbacks self
    | None => exit_callbacks self
    end.
Proof.
  unfold enter_context, super_enter_context, registered.
  destruct myfile as [f|]; [|reflexivity].
  cbn. destruct (cm_enter f); reflexivity.
Qed.

(** X16. The exit callbacks are those of the objects that were entered, the
    most recent first: [None] and an object whose [__enter__] raised leave no
    callback, although both are in [files]. *)
Theorem enter_all_callbacks (l : list (option File)) (self : stack) :
  exit_callbacks (enter_all cm_enter l self)
  = reverse (omap (registered cm_enter) l) ++ exit_callbacks self.
Proof.
  revert self. induction l as [|x l IH]; intros self; [reflexivity|].
  cbn [enter_all fold_left].
  fold (enter_all cm_enter l (fst (enter_context cm_enter x self))).
  rewrite IH, enter_context_callbacks. cbn [omap list_omap].
  destruct (registered cm_enter x) as [f|]; [|reflexivity].
  now rewrite reverse_cons, <- app_assoc.
Qed.

(** X17. After entering the objects of [l] into a new stack, indexing
    succeeds exactly from [-len(l)] to [len(l) - 1] and raises IndexError
    outside: every call counts, whatever was entered. *)
Theorem enter_all_index_range (l : list (option File)) (i : Z) :
  is_Some (getitem (enter_all cm_enter l ExitStackWithFiles_init) i)
  <-> - Z.of_nat (length l) <= i < Z.of_nat (length l).
Proof.
  unfold getitem. rewrite enter_all_files. cbn [files ExitStackWithFiles_init app].
  destruct (Z.leb_spec 0 i) as [H0|H0], (Z.ltb_spec i (Z.of_nat (length l))) as [H1|H1];
    cbn [andb].
  - rewrite lookup_lt_is_Some. split; lia.
  - destruct (Z.leb_spec (- Z.of_nat (length l)) i), (Z.ltb_spec i 0); cbn [andb];
      try lia; split; try lia; intros [? [=]].
  - destruct (Z.leb_spec (- Z.of_nat (length l)) i) as [H2|H2]; cbn [andb].
    + replace (i <? 0) with true by (symmetry; apply Z.ltb_lt; lia).
      rewrite lookup_lt_is_Some. split; lia.
    + split; [intros [? [=]] | lia].
  - lia.
Qed.

End ExitStackMore.

End IOToolsMore.
